(* ===== verification/_CoqProject ===== *)
-Q . S2P
Prelude.v
PyStr.v
Sre.v
Extract.v
PyFloat.v
Frame.v
SortValues.v
Normalize.v
Prompt.v
Schema.v
Pipeline.v
