(* ===== verification/Prelude.v ===== *)
(** * A verification development of DB_RAG's question-to-SQL pipeline

    The repository is one Python function, [answer_gen(textual_question,
    db_engine, model_name)] in [src/src/rag.py].  Its parts, in the order
    the function runs them:
    - the schema text (lines 8-45) and the four worked examples (lines
      46-109), two string constants;
    - the prompt, an f-string over both and the question (lines 115-127);
    - the generation call: ollama's [chat] with temperature 0 and the prompt
      as the only user message (lines 129-134), whose
      [response.message.content] (a [str] or [None]) is the reply;
    - the extraction of the query from the reply: [re.search] of
      [```sql\s*(.*?)\s*```] with [re.DOTALL] and [group(1).strip()], or,
      without a match, the reply's lines minus those starting with three
      backticks, rejoined and stripped (lines 136-144);
    - three diagnostic prints (lines 149-151);
    - under [try]/[except Exception] (lines 152-169): [db_engine.query], then
      [None] for an empty frame, else the first cell, rounded to two places
      when a float, replaced by the first cell after
      [sort_values(columns[0], ascending=False)] when a string, as it is
      otherwise.

    ** Files, Modules and what they model
    - [Prelude] (this file): Python strings [pystr] (lists of Unicode code
      points [pychar], literals [<<"...">>] in [py_scope]), [startswith] as
      [prefixb], the backtracking combinator [first_some], Python's
      exceptions [pyexn] and the result type [pyresult] with its bind
      notation and [try_except], the hint databases and tactics, and the
      list lemmas the components share.
    - [PyStr]: the [str] methods the code calls, as CPython defines them:
      [isspace], [strip] ([lstrip]/[rstrip]), [splitlines] (all of Python's
      line boundaries, [\r\n] as one), ["\n".join], and a substring search
      [find_sub] for the statements.
    - [Sre] (Module [Sre]): [re.search] as CPython runs it: [compile]
      ([sre_parse]/[sre_compile] for the syntax the pattern uses) to the
      opcodes [CHAR], [REPEAT_ONE], [MIN_REPEAT_ONE], [MARK]; [sre_match],
      the backtracking matcher of [_sre.c] with its order of alternatives;
      [search] and [group].
    - [Extract] (Module [Extract]): [extract_sql], lines 136-144, returning a
      [pyresult] (the [AttributeError] of a [None] group and the [re.error]
      of a bad pattern are kept as error paths), with [fallback] for lines
      143-144; and its abstract contract [extract_spec]: the stripped text
      between the first ["```sql"] and the next ["```"], else the fallback.
    - [PyFloat] (Module [PyFloat]): [round(answer, 2)] on binary64
      ([SpecFloat], 53-bit precision): numpy's [around] ([np_round2]) for a
      [numpy.float64], CPython's correctly rounded [float.__round__]
      ([py_round2]) for a Python [float].
    - [Frame] (Module [Frame]): the pandas [DataFrame] operations the code
      calls: [empty], [iloc[0, 0]], [columns[0]] and [sort_values] with its
      [KeyError], [ValueError] (duplicate label) and [TypeError] (mixed
      types) paths and missing values last.
    - [SortValues] (Module [SortValues]): pandas' contract for
      [sort_values] (any descending argsort, stable or not), the
      equivalence [frame_perm] of frames up to row order and the [Proper]
      instances of the frame operations for it.
    - [Normalize] (Module [Normalize]): [postprocess], lines 155-167, and
      [execute], the [try]/[except] of lines 152-169 around the query.
    - [Prompt] (Module [Prompt]): the two constants line by line and
      [build_prompt], the f-string piece by piece.
    - [Schema] (Module [Schema]): the specification's Schema Descriptor
      (tables with typed columns) and a parser from the schema text's line
      format into it.
    - [Pipeline] (Module [Pipeline]): [answer_gen] itself, against the
      interfaces [ChatService] (ollama's [chat], returning a
      [ChatResponse] whose [message] has an optional [content]) and [DbEngine]
      ([db_engine.query]), in a state-and-exception monad [M] whose state
      is the trace of events (the chat request, each printed text, the
      query) in order; and the specification's state machine (START,
      PromptBuilt, Generated, Extracted, Executed, END) as an inductive
      step relation [step].

    ** What the theorems show
    - End to end (Pipeline): when the chat service answers with a text,
      [answer_gen] returns [execute query (extract_spec reply)] after
      exactly the request, the three prints and the query, in this order; a
      chat failure propagates with nothing done after it, a response
      without text raises [TypeError] at [re.search], and these are the
      only exceptions that escape; [answer_gen] refines the step relation:
      a run from START ends in a final state exactly when that state is
      the outcome [answer_gen] returns.
    - Extraction (Sre, Extract): the compiled pattern and the backtracking
      matcher capture exactly the stripped text between the first opening
      fence and the next closing fence (an equivalence of the regex with a
      direct definition, proved on all Unicode inputs); hence the extractor meets
      [extract_spec] and never raises; a block is found whatever prose
      surrounds it; without fences the fallback returns the stripped reply
      with its line boundaries normalised to ["\n"] (a round trip of
      [splitlines] and [join] in PyStr).
    - Normalisation (Frame, SortValues, Normalize, PyFloat): the model's
      sort meets pandas' contract and only reorders rows (so frames stay
      well formed), and every sort meeting the contract puts the same key
      first; the string re-sort returns a greatest string of the first
      column, and the same answer for the same rows in any order; empty
      frames and any exception give [None]; on a non-empty frame the
      answer is the first cell rounded by numpy's algorithm when it is a
      [numpy.float64], by Python's when it is a [float], a greatest string
      of the first column (or [None]) when it is a string, and the cell
      itself otherwise.
    - The prompt (Prompt, Schema): for every question it holds the role
      statement, the schema, then all examples verbatim, then the rules of
      lines 119-125 in their order, then the question verbatim and the cue;
      the question can be recovered from it; the schema text parses into
      four tables with unique names and unique column names, and every
      identifier of the examples' queries is one of them.
    - Findings, as theorems on concrete values: the examples open four
      fences and close none, and every reply in their format (reasoning
      lines, a fence line, query lines) keeps its reasoning in the
      extracted query; two rules and the question header run together;
      numpy's rounding gives 0.0 for 0.005 (Python: 0.01) and overflows
      to infinity on the largest doubles; a mixed-type or
      duplicate-label first column gives [None]; a no-fence reply with
      [\r\n] or a Unicode line separator is not returned unchanged; a
      one-line fenced reply is extracted although the specification says a
      reply of fence lines gives the empty query.

    ** Bounds and fuel
    Every recursive definition of the code's model is structural (the
    matcher recurses on the opcode list, the counts on the string), so no
    fuel is needed and every function is total and evaluates with
    [vm_compute].  The one definition with fuel is the schema parser
    [Schema.parse_tables], which is not code but reads the schema text:
    it is given [length ls] steps for [ls] lines, enough because each
    table takes at least three lines, and the theorem on it shows it
    returns the four tables.  Integers are
    unbounded [Z] where Python's are; floats are binary64 with their
    rounding and overflow.  The repeat bound [MAXREPEAT] (2^32-1) of [_sre]
    is not modelled: no reply reaches it.

    ** Not modelled
    - the chat model and the database engine: external services, given
      only by their interfaces, any function from requests to replies or
      exceptions;
    - which Python type each cell of a result has (pandas' dtype
      inference in [db_engine]): the frame the service returns gives each
      cell its type, so every frame the service can return is covered;
    - the order pandas' unstable [quicksort] gives to rows with equal
      keys: the model sorts stably, and SortValues proves that every
      order meeting pandas' contract gives the same first cell;
    - printing to a real stdout: [print2] appends its text to the trace
      and never fails, while Python's [print] can raise (for instance
      [UnicodeEncodeError] when stdout's encoding cannot represent a
      character of the prompt or the reply, or [OSError] on a closed
      pipe); such an exception would escape [answer_gen] from lines
      149-151, outside the [try], and the model does not have that path;
    - missing values: [Frame.is_na] recognises [None] and float NaN (the
      values a SQL NULL becomes in pandas' object and float columns), not
      [pandas.NaT], [pandas.NA] or a [decimal.Decimal] NaN, which the
      cell type does not represent. *)

From Stdlib Require Import Ascii String.
From Stdlib Require Import List Arith NArith Lia Bool.
Import ListNotations.

(** ** Python strings

    A Python [str] is a sequence of code points, a [pychar] each (the
    valid ones are 0..0x10FFFF; the definitions classify larger numbers as
    ordinary characters, so every statement over all [pystr] covers every
    Python string). *)

Abbreviation pychar := N.
Abbreviation pystr := (list pychar).

(** Equality of strings, as Python's [==]. *)
Definition pystr_dec : forall a b : pystr, {a = b} + {a <> b} := list_eq_dec N.eq_dec.

Declare Scope py_scope.
Delimit Scope py_scope with py.

(** A string literal of the source (all of them are ASCII), as a [pystr]. *)
Definition lit (s : string) : pystr := map N_of_ascii (list_ascii_of_string s).

(** The code point of an ASCII character. *)
Definition chr (a : ascii) : pychar := N_of_ascii a.

Notation "'<<' s '>>'" := (lit s%string) (s at level 0, format "'<<' s '>>'") : py_scope.

Open Scope py_scope.

Definition backtick : pychar := 96%N.
Definition newline : pychar := 10%N.

(** [prefixb p s] is Python's [s.startswith(p)]. *)
Fixpoint prefixb (p s : pystr) : bool :=
  match p, s with
  | [], _ => true
  | c :: p', d :: s' => N.eqb c d && prefixb p' s'
  | _ :: _, [] => false
  end.

(** [first_some f l] tries the alternatives of [l] in order and returns the
    first result that is not [None]: the shape of every backtracking loop
    of the regular-expression engine. *)
Fixpoint first_some {A B : Type} (f : A -> option B) (l : list A) : option B :=
  match l with
  | [] => None
  | x :: l' => match f x with Some b => Some b | None => first_some f l' end
  end.

(** ** Exceptions

    The Python exceptions the code can raise, and a result type for code
    that raises them.  [ServiceError] stands for whatever an external
    service (the chat model, the database engine) raises. *)

Inductive pyexn :=
| TypeError
| IndexError
| KeyError
| ValueError
| AttributeError
| ReError
| ServiceError (what : string).

Inductive pyresult (A : Type) : Type :=
| Ok (a : A)
| Raise (e : pyexn).
Arguments Ok {A} a.
Arguments Raise {A} e.

Notation "x <- c ;; k" :=
  (match c with Ok x => k | Raise e => Raise e end)
  (at level 61, c at next level, right associativity) : py_scope.

(** [try: c except Exception: h] *)
Definition try_except {A} (c : pyresult A) (h : A) : A :=
  match c with Ok a => a | Raise _ => h end.

(** ** Hint databases and tactics shared by the components *)

Create HintDb pystr discriminated.
Create Rewrite HintDb pystr_rw.

Ltac inv H := inversion H; subst; clear H.

(** Case on a character comparison and substitute when it holds. *)
Ltac case_ceqb :=
  match goal with
  | |- context [N.eqb ?a ?b] =>
      destruct (N.eqb_spec a b); [subst|]
  | H : context [N.eqb ?a ?b] |- _ =>
      destruct (N.eqb_spec a b); [subst|]
  end.

(** ** Generic lemmas *)

Lemma prefixb_spec (p s : pystr) : prefixb p s = true <-> exists r, s = p ++ r.
Proof.
  revert s; induction p as [|c p IH]; intros [|d s]; simpl.
  - split; eauto.
  - split; eauto.
  - split; [discriminate | intros [r Hr]; discriminate].
  - rewrite andb_true_iff, IH. split.
    + intros [Hc [r ->]]. apply N.eqb_eq in Hc; subst. eauto.
    + intros [r Hr]. inv Hr. split; [apply N.eqb_refl | eauto].
Qed.

Lemma prefixb_app (p r : pystr) : prefixb p (p ++ r) = true.
Proof. apply prefixb_spec; eauto. Qed.

Lemma prefixb_app_r (p s r : pystr) : prefixb p s = true -> prefixb p (s ++ r) = true.
Proof.
  intros H. apply prefixb_spec in H as [r' ->]. rewrite <- app_assoc.
  apply prefixb_app.
Qed.

Lemma prefixb_app_inv (p s r : pystr) :
  length p <= length s -> prefixb p (s ++ r) = prefixb p s.
Proof.
  revert s; induction p as [|c p IH]; intros [|d s] Hl; simpl in *; try lia; auto.
  rewrite IH by lia. reflexivity.
Qed.

Lemma prefixb_length (p s : pystr) : prefixb p s = true -> length p <= length s.
Proof.
  intros H. apply prefixb_spec in H as [r ->]. rewrite length_app. lia.
Qed.

Lemma prefixb_refl (p : pystr) : prefixb p p = true.
Proof. rewrite <- (app_nil_r p) at 2. apply prefixb_app. Qed.

(** A prefix of [a ++ b] is a prefix of [a], or runs over all of [a]. *)
Lemma prefixb_app_cases (p a b : pystr) :
  prefixb p (a ++ b) = true -> prefixb p a = true \/ exists w, p = a ++ w /\ prefixb w b = true.
Proof.
  intros H. apply prefixb_spec in H as [r Hr]. apply app_eq_app in Hr as [l [[-> ->]|[-> ->]]].
  - left. apply prefixb_app.
  - right. exists l. split; [reflexivity | apply prefixb_app].
Qed.

#[export] Hint Resolve prefixb_app prefixb_app_r : pystr.
#[export] Hint Rewrite prefixb_app : pystr_rw.

Lemma first_some_app {A B} (f : A -> option B) l1 l2 :
  first_some f (l1 ++ l2) =
  match first_some f l1 with Some b => Some b | None => first_some f l2 end.
Proof.
  induction l1 as [|x l1 IH]; simpl; [reflexivity|].
  destruct (f x); [reflexivity | exact IH].
Qed.

Lemma first_some_none {A B} (f : A -> option B) l :
  (forall x, In x l -> f x = None) -> first_some f l = None.
Proof.
  induction l as [|x l IH]; simpl; intros H; [reflexivity|].
  rewrite H by auto. apply IH; auto.
Qed.

Lemma first_some_ext {A B} (f g : A -> option B) l :
  (forall x, In x l -> f x = g x) -> first_some f l = first_some g l.
Proof.
  induction l as [|x l IH]; simpl; intros H; [reflexivity|].
  rewrite H by auto. destruct (g x); [reflexivity|]. apply IH; auto.
Qed.

(** A backtracking loop over [seq a n] that succeeds first at [a + k]. *)
Lemma first_some_seq_at {B} (f : nat -> option B) a n k b :
  k < n -> (forall j, j < k -> f (a + j) = None) -> f (a + k) = Some b ->
  first_some f (seq a n) = Some b.
Proof.
  revert a k; induction n as [|n IH]; intros a k Hk Hbefore Hat; [lia|].
  simpl. destruct k as [|k].
  - rewrite Nat.add_0_r in Hat. now rewrite Hat.
  - pose proof (Hbefore 0 ltac:(lia)) as H0. rewrite Nat.add_0_r in H0.
    rewrite H0. apply (IH (S a) k); [lia| |].
    + intros j Hj. replace (S a + j) with (a + S j) by lia. apply Hbefore. lia.
    + now replace (S a + k) with (a + S k) by lia.
Qed.

Lemma first_some_seq_none {B} (f : nat -> option B) a n :
  (forall j, j < n -> f (a + j) = None) -> first_some f (seq a n) = None.
Proof.
  intros H. apply first_some_none. intros x Hx. apply in_seq in Hx.
  replace x with (a + (x - a)) by lia. apply H. lia.
Qed.

Lemma skipn_skipn' {A} (n m : nat) (l : list A) : skipn n (skipn m l) = skipn (m + n) l.
Proof. rewrite skipn_skipn. f_equal. lia. Qed.

#[export] Hint Rewrite @skipn_skipn' : pystr_rw.

Lemma first_some_seq_shift {B} (f : nat -> option B) a n :
  first_some f (seq (S a) n) = first_some (fun j => f (S j)) (seq a n).
Proof.
  revert a; induction n as [|n IH]; intros a; simpl; [reflexivity|].
  destruct (f (S a)); [reflexivity | apply IH].
Qed.

Lemma rev_seq_S a n : rev (seq a (S n)) = (a + n) :: rev (seq a n).
Proof. rewrite seq_S, rev_app_distr. reflexivity. Qed.

Lemma nth_error_skipn_cons {A} n (l : list A) x :
  nth_error l n = Some x -> skipn n l = x :: skipn (S n) l.
Proof.
  revert l; induction n as [|n IH]; intros [|y l] H; simpl in *; try discriminate.
  - now inv H.
  - now apply IH.
Qed.

Lemma filter_all {A} (f : A -> bool) l : (forall x, In x l -> f x = true) -> filter f l = l.
Proof.
  induction l as [|x l IH]; simpl; intros H; [reflexivity|].
  rewrite H by auto. f_equal. apply IH. auto.
Qed.

Lemma filter_none {A} (f : A -> bool) l : (forall x, In x l -> f x = false) -> filter f l = [].
Proof.
  induction l as [|x l IH]; simpl; intros H; [reflexivity|].
  rewrite H by auto. apply IH. auto.
Qed.
