(* ===== verification/PyStr.v ===== *)
(** * PyStr: the Python [str] methods called by [rag.py]

    [str.isspace] on one character, [strip], [lstrip]/[rstrip] (CPython's
    [do_strip]), [str.splitlines()] with [keepends=False] (CPython's
    [splitlines] loop with its line-boundary table), ["\n".join], and the
    first-occurrence search [str.find] that the abstract specification of
    the extractor is stated with.  Strings are [pystr] (Prelude). *)

From Stdlib Require Import Ascii String.
From Stdlib Require Import List Arith NArith Lia Bool.
From S2P Require Import Prelude.
Import ListNotations.
Open Scope py_scope.

(** ** Character classes *)

(** [c.isspace()], CPython's [Py_UNICODE_ISSPACE]: tab to carriage return,
    the information separators 0x1C-0x1F and space (its ASCII table), NEL
    (0x85), NBSP (0xA0), OGHAM SPACE MARK (0x1680), the spaces
    0x2000-0x200A, LINE and PARAGRAPH SEPARATOR (0x2028, 0x2029), NNBSP
    (0x202F), MMSP (0x205F) and IDEOGRAPHIC SPACE (0x3000) (its table of
    the Unicode [White_Space] characters of bidirectional class WS, B or
    S).  The same test is the [\s] class of a [str] pattern. *)
Definition isspace (c : pychar) : bool :=
  (((9 <=? c) && (c <=? 13)) || ((28 <=? c) && (c <=? 32))
   || (c =? 133) || (c =? 160) || (c =? 5760)
   || ((8192 <=? c) && (c <=? 8202)) || (c =? 8232) || (c =? 8233)
   || (c =? 8239) || (c =? 8287) || (c =? 12288))%N.

(** The line boundaries of [str.splitlines], CPython's
    [Py_UNICODE_ISLINEBREAK]: \n, \x0b, \x0c, \r, the separators
    0x1C-0x1E, NEL (0x85) and LINE and PARAGRAPH SEPARATOR (0x2028,
    0x2029).  (0x1F is a space, not a line boundary.) *)
Definition is_linebreak (c : pychar) : bool :=
  (((10 <=? c) && (c <=? 13)) || ((28 <=? c) && (c <=? 30)) || (c =? 133)
   || (c =? 8232) || (c =? 8233))%N.

Definition CR : pychar := 13%N.
Definition LF : pychar := 10%N.

(** ** strip *)

Fixpoint lstrip (s : pystr) : pystr :=
  match s with
  | [] => []
  | c :: s' => if isspace c then lstrip s' else s
  end.

Definition rstrip (s : pystr) : pystr := rev (lstrip (rev s)).

(** [s.strip()] *)
Definition strip (s : pystr) : pystr := rstrip (lstrip s).

(** ** splitlines and join *)

(** [s.splitlines()]: a line ends at a line boundary, [\r\n] counting as
    one; a last line without a boundary is kept only when it is not
    empty. *)
Fixpoint splitlines (s : pystr) : list pystr :=
  match s with
  | [] => []
  | c :: t =>
      if is_linebreak c then
        match t with
        | [] => [[]]
        | d :: t' =>
            if N.eqb c CR && N.eqb d LF then [] :: splitlines t'
            else [] :: splitlines t
        end
      else
        match splitlines t with
        | [] => [[c]]
        | l :: ls => (c :: l) :: ls
        end
  end.

(** [sep.join(l)] *)
Fixpoint join (sep : pystr) (l : list pystr) : pystr :=
  match l with
  | [] => []
  | [x] => x
  | x :: l' => x ++ sep ++ join sep l'
  end.

(** ** find *)

(** [s.find(p)] as an option: the least index where [p] occurs. *)
Fixpoint find_sub (p s : pystr) : option nat :=
  if prefixb p s then Some 0
  else match s with
       | [] => None
       | _ :: s' => option_map S (find_sub p s')
       end.

(** ** Lemmas on the character classes *)

Definition all_space (w : pystr) : Prop := forall c, In c w -> isspace c = true.

Lemma isspace_linebreak c : is_linebreak c = true -> isspace c = true.
Proof.
  unfold is_linebreak, isspace.
  rewrite !orb_true_iff, !andb_true_iff, !N.leb_le, !N.eqb_eq. lia.
Qed.

Lemma backtick_not_space : isspace backtick = false.
Proof. reflexivity. Qed.

#[export] Hint Resolve isspace_linebreak backtick_not_space : pystr.

Lemma all_space_nil : all_space [].
Proof. intros c []. Qed.

Lemma all_space_cons c w : all_space (c :: w) <-> isspace c = true /\ all_space w.
Proof.
  unfold all_space; simpl; split.
  - intros H; split; auto.
  - intros [Hc Hw] x [<-|Hx]; auto.
Qed.

Lemma all_space_app w1 w2 : all_space (w1 ++ w2) <-> all_space w1 /\ all_space w2.
Proof.
  unfold all_space; split.
  - intros H; split; intros c Hc; apply H; apply in_or_app; auto.
  - intros [H1 H2] c Hc. apply in_app_or in Hc as [?|?]; auto.
Qed.

Lemma all_space_rev w : all_space (rev w) <-> all_space w.
Proof. unfold all_space. setoid_rewrite <- in_rev. reflexivity. Qed.

#[export] Hint Resolve all_space_nil : pystr.

(** ** Lemmas on strip *)

Lemma lstrip_app_space w s : all_space w -> lstrip (w ++ s) = lstrip s.
Proof.
  induction w as [|c w IH]; simpl; intros H; [reflexivity|].
  apply all_space_cons in H as [Hc Hw]. rewrite Hc. auto.
Qed.

Lemma lstrip_nonspace c s : isspace c = false -> lstrip (c :: s) = c :: s.
Proof. simpl. intros ->. reflexivity. Qed.

(** [lstrip] removes exactly the leading run of whitespace. *)
Lemma lstrip_split s :
  exists w, all_space w /\ s = w ++ lstrip s /\
  match lstrip s with [] => True | c :: _ => isspace c = false end.
Proof.
  induction s as [|c s IH]; simpl.
  - exists []. auto with pystr.
  - destruct (isspace c) eqn:Hc.
    + destruct IH as (w & Hw & Hs & Hh). exists (c :: w).
      rewrite all_space_cons. simpl. rewrite <- Hs. auto.
    + exists []. simpl. auto with pystr.
Qed.

Lemma lstrip_idem s : lstrip (lstrip s) = lstrip s.
Proof.
  induction s as [|c s IH]; simpl; [reflexivity|].
  destruct (isspace c) eqn:Hc; [exact IH|]. simpl. now rewrite Hc.
Qed.

Lemma rstrip_app_space s w : all_space w -> rstrip (s ++ w) = rstrip s.
Proof.
  intros H. unfold rstrip. rewrite rev_app_distr, lstrip_app_space; [reflexivity|].
  now apply all_space_rev.
Qed.

Lemma rstrip_app_nonspace s c : isspace c = false -> rstrip (s ++ [c]) = s ++ [c].
Proof.
  intros H. unfold rstrip. rewrite rev_app_distr. simpl. rewrite H.
  simpl. rewrite rev_involutive. reflexivity.
Qed.

Lemma rstrip_idem s : rstrip (rstrip s) = rstrip s.
Proof. unfold rstrip. rewrite rev_involutive, lstrip_idem. reflexivity. Qed.

(** [rstrip] distributes over a concatenation whose right part keeps a
    non-space character. *)
Lemma rstrip_app s t : rstrip t <> [] -> rstrip (s ++ t) = s ++ rstrip t.
Proof.
  unfold rstrip. rewrite rev_app_distr. intros H.
  destruct (lstrip_split (rev t)) as (w & Hw & Ht & Hh).
  remember (lstrip (rev t)) as u eqn:Hu.
  rewrite Ht, <- app_assoc, lstrip_app_space by exact Hw.
  destruct u as [|c r]; [contradiction H; reflexivity|].
  simpl in Hh |- *. rewrite Hh. simpl.
  rewrite rev_app_distr, rev_involutive, <- app_assoc. reflexivity.
Qed.

Lemma rstrip_cons_nonspace c s : isspace c = false -> rstrip (c :: s) = c :: rstrip s.
Proof.
  intros Hc. unfold rstrip. simpl.
  destruct (lstrip_split (rev s)) as (w & Hw & Ht & Hh).
  remember (lstrip (rev s)) as u eqn:Hu.
  rewrite Ht, <- app_assoc, lstrip_app_space by exact Hw.
  destruct u as [|d r]; simpl.
  - rewrite Hc. reflexivity.
  - simpl in Hh. rewrite Hh. simpl. rewrite rev_app_distr. reflexivity.
Qed.

Lemma rstrip_all_space w : all_space w -> rstrip w = [].
Proof. intros H. apply (rstrip_app_space [] w H). Qed.

Lemma lstrip_rstrip s : lstrip (rstrip s) = rstrip (lstrip s).
Proof.
  destruct (lstrip_split s) as (w & Hw & Hs & Hh).
  remember (lstrip s) as u eqn:Hu. rewrite Hs.
  destruct u as [|c r].
  - rewrite app_nil_r, rstrip_all_space by exact Hw. reflexivity.
  - simpl in Hh. rewrite rstrip_app, rstrip_cons_nonspace, lstrip_app_space by
      (try exact Hw; try exact Hh; rewrite rstrip_cons_nonspace by exact Hh; discriminate).
    simpl. now rewrite Hh.
Qed.

Lemma strip_idem s : strip (strip s) = strip s.
Proof.
  unfold strip. rewrite lstrip_rstrip, lstrip_idem, rstrip_idem. reflexivity.
Qed.

#[export] Hint Rewrite lstrip_idem rstrip_idem strip_idem : pystr_rw.

(** ** Lemmas on find *)

(** [find_sub p s] is the least index at which [p] occurs. *)
Lemma find_sub_least p s i :
  find_sub p s = Some i <->
  prefixb p (skipn i s) = true /\ (forall k, k < i -> prefixb p (skipn k s) = false).
Proof.
  revert i; induction s as [|c s IH]; intros i; simpl.
  - destruct (prefixb p []) eqn:Hp; split.
    + intros H; inv H. split; [exact Hp | intros; lia].
    + intros [_ Hk]. destruct i as [|i]; [reflexivity|].
      specialize (Hk 0 ltac:(lia)). simpl in Hk. congruence.
    + discriminate.
    + intros [H _]. rewrite skipn_nil in H. congruence.
  - destruct (prefixb p (c :: s)) eqn:Hp; split.
    + intros H; inv H. split; [exact Hp | intros; lia].
    + intros [_ Hk]. destruct i as [|i]; [reflexivity|].
      specialize (Hk 0 ltac:(lia)). simpl in Hk. congruence.
    + intros H.
      assert (Hs : exists j, find_sub p s = Some j /\ i = S j)
        by (destruct (find_sub p s); simpl in H; inv H; eauto).
      destruct Hs as (j & Hf & ->).
      apply IH in Hf as [Hj Hk]. split; [exact Hj|].
      intros [|k] Hlt; [exact Hp | apply Hk; lia].
    + intros [Hi Hk]. destruct i as [|i]; [simpl in Hi; congruence|].
      assert (Hf : find_sub p s = Some i).
      { apply IH. split; [exact Hi|]. intros k Hlt. apply (Hk (S k)). lia. }
      now rewrite Hf.
Qed.

Lemma find_sub_none p s :
  find_sub p s = None <-> forall k, prefixb p (skipn k s) = false.
Proof.
  induction s as [|c s IH]; simpl.
  - destruct (prefixb p []) eqn:Hp; split; intros H.
    + discriminate.
    + specialize (H 0). simpl in H. congruence.
    + intros k. now rewrite skipn_nil.
    + reflexivity.
  - destruct (prefixb p (c :: s)) eqn:Hp; split; intros H.
    + discriminate.
    + specialize (H 0). simpl in H. congruence.
    + destruct (find_sub p s) eqn:Hf; simpl in H; [discriminate|].
      intros [|k]; [exact Hp|]. simpl. now apply IH.
    + assert (Hf : find_sub p s = None).
      { apply IH. intros k. exact (H (S k)). }
      now rewrite Hf.
Qed.

(** A prefix at which [p] cannot start shifts the first occurrence. *)
Lemma find_sub_app_skip p w x :
  (forall k, k < length w -> prefixb p (skipn k w ++ x) = false) ->
  find_sub p (w ++ x) = option_map (Nat.add (length w)) (find_sub p x).
Proof.
  induction w as [|c w IH]; intros H; simpl.
  - destruct (find_sub p x); reflexivity.
  - pose proof (H 0 ltac:(simpl; lia)) as H0. simpl in H0. rewrite H0, IH.
    + destruct (find_sub p x); reflexivity.
    + intros k Hk. apply (H (S k)). simpl. lia.
Qed.

(** ** More lemmas on strip *)

Lemma all_space_skipn k w : all_space w -> all_space (skipn k w).
Proof.
  revert w; induction k as [|k IH]; intros [|c w] H; simpl; auto.
  apply IH. now apply all_space_cons in H as [_ H].
Qed.

Lemma all_space_firstn k w : all_space w -> all_space (firstn k w).
Proof.
  revert w; induction k as [|k IH]; intros [|c w] H; simpl; auto with pystr.
  apply all_space_cons in H as [Hc Hw]. apply all_space_cons. auto.
Qed.

Lemma lstrip_nil_all_space x : lstrip x = [] -> all_space x.
Proof.
  intros H. destruct (lstrip_split x) as (w & Hw & Hx & _).
  rewrite H, app_nil_r in Hx. now subst.
Qed.

Lemma rstrip_nil_all_space x : rstrip x = [] -> all_space x.
Proof.
  unfold rstrip. intros H. apply (f_equal (@rev pychar)) in H.
  rewrite rev_involutive in H. apply all_space_rev, lstrip_nil_all_space, H.
Qed.

(** [rstrip x] is [x] less a trailing run of whitespace. *)
Lemma rstrip_split x : exists w, all_space w /\ x = rstrip x ++ w.
Proof.
  unfold rstrip. destruct (lstrip_split (rev x)) as (w & Hw & Hx & _).
  exists (rev w). split; [now apply all_space_rev|].
  rewrite <- rev_app_distr, <- Hx, rev_involutive. reflexivity.
Qed.

Lemma firstn_rstrip x y : firstn (length (rstrip x)) (x ++ y) = rstrip x.
Proof.
  destruct (rstrip_split x) as (w & _ & Hx).
  rewrite Hx at 2. rewrite <- app_assoc, firstn_app, firstn_all, Nat.sub_diag.
  simpl. apply app_nil_r.
Qed.

(** The prefix of a left-stripped string is left-stripped. *)
Lemma lstrip_firstn_lstrip k u : lstrip (firstn k (lstrip u)) = firstn k (lstrip u).
Proof.
  destruct (lstrip_split u) as (_ & _ & _ & Hh).
  destruct (lstrip u) as [|c r]; [now rewrite firstn_nil|].
  destruct k as [|k]; [reflexivity|]. simpl. now rewrite Hh.
Qed.

Lemma lstrip_all_space w : all_space w -> lstrip w = [].
Proof. intros H. rewrite <- (app_nil_r w), lstrip_app_space by exact H. reflexivity. Qed.

Lemma find_sub_prefix p x : prefixb p x = true -> find_sub p x = Some 0.
Proof. intros H. destruct x; cbn [find_sub]; now rewrite H. Qed.

Lemma rstrip_cons c x :
  isspace c = false \/ rstrip x <> [] -> rstrip (c :: x) = c :: rstrip x.
Proof.
  intros [H|H]; [now apply rstrip_cons_nonspace|].
  apply (rstrip_app [c] x H).
Qed.

Lemma lstrip_cons_space c s : isspace c = true -> lstrip (c :: s) = lstrip s.
Proof. simpl. intros ->. reflexivity. Qed.

(** ** splitlines and join *)

(** Induction two characters at a time, the shape of [splitlines]. *)
Lemma pystr_ind2 (P : pystr -> Prop) :
  P [] -> (forall c, P [c]) ->
  (forall c d t, P t -> P (d :: t) -> P (c :: d :: t)) -> forall s, P s.
Proof.
  intros H0 H1 H2 s.
  assert (H : forall s, P s /\ forall c, P (c :: s)).
  { induction s0 as [|d t [IHt IHdt]]; split; auto. }
  apply H.
Qed.

(** Every line boundary becomes ["\n"], [\r\n] counting as one. *)
Fixpoint norm_nl (s : pystr) : pystr :=
  match s with
  | [] => []
  | c :: t =>
      if is_linebreak c then
        match t with
        | [] => [LF]
        | d :: t' => if N.eqb c CR && N.eqb d LF then LF :: norm_nl t' else LF :: norm_nl t
        end
      else c :: norm_nl t
  end.

Lemma splitlines_cons c t :
  splitlines (c :: t) =
  if is_linebreak c then
    match t with
    | [] => [[]]
    | d :: t' => if N.eqb c CR && N.eqb d LF then [] :: splitlines t' else [] :: splitlines t
    end
  else match splitlines t with [] => [[c]] | l :: ls => (c :: l) :: ls end.
Proof. reflexivity. Qed.

Lemma norm_nl_cons c t :
  norm_nl (c :: t) =
  if is_linebreak c then
    match t with
    | [] => [LF]
    | d :: t' => if N.eqb c CR && N.eqb d LF then LF :: norm_nl t' else LF :: norm_nl t
    end
  else c :: norm_nl t.
Proof. reflexivity. Qed.

Lemma splitlines_nil s : splitlines s = [] -> s = [].
Proof.
  destruct s as [|c t]; cbn [splitlines]; intros H; [reflexivity|].
  destruct (is_linebreak c);
    [destruct t as [|d t']; [|destruct (N.eqb c CR && N.eqb d LF)] | destruct (splitlines t)];
    discriminate H.
Qed.

Lemma join_cons_head sep c l ls : join sep ((c :: l) :: ls) = c :: join sep (l :: ls).
Proof. destruct ls; reflexivity. Qed.

Lemma join_nil_head sep l ls : join sep ([] :: l :: ls) = sep ++ join sep (l :: ls).
Proof. reflexivity. Qed.

(** The last character, if any, is not a line boundary. *)
Definition no_trailing_break (s : pystr) : Prop :=
  forall c, last s LF = c -> s <> [] -> is_linebreak c = false.

Lemma no_trailing_break_cons c t : t <> [] -> no_trailing_break (c :: t) -> no_trailing_break t.
Proof.
  intros Ht H d Hd _. apply (H d); [|discriminate].
  destruct t; [contradiction|]. exact Hd.
Qed.

(** (roundtrip) Splitting into lines and joining with ["\n"] normalises
    the line boundaries of a text that does not end with one. *)
Lemma join_splitlines s : no_trailing_break s -> join [LF] (splitlines s) = norm_nl s.
Proof.
  induction s as [|c|c d t IHt IHdt] using pystr_ind2; intros Hs.
  - reflexivity.
  - simpl. destruct (is_linebreak c) eqn:Hc; [|reflexivity].
    rewrite (Hs c) in Hc by (reflexivity || discriminate). discriminate.
  - assert (Hdt : no_trailing_break (d :: t)) by (apply (no_trailing_break_cons c); easy).
    rewrite (splitlines_cons c (d :: t)), (norm_nl_cons c (d :: t)). destruct (is_linebreak c) eqn:Hc.
    + destruct (N.eqb c CR && N.eqb d LF) eqn:Hcrlf.
      * destruct t as [|e t].
        -- exfalso. apply andb_true_iff in Hcrlf as [_ Hd].
           apply N.eqb_eq in Hd. subst d. specialize (Hs LF eq_refl ltac:(discriminate)).
           discriminate.
        -- rewrite <- IHt by (apply (no_trailing_break_cons d); easy).
           destruct (splitlines (e :: t)) as [|l ls] eqn:E; [apply splitlines_nil in E; discriminate|].
           reflexivity.
      * rewrite <- IHdt by exact Hdt.
        destruct (splitlines (d :: t)) as [|l ls] eqn:E; [apply splitlines_nil in E; discriminate|].
        reflexivity.
    + rewrite <- IHdt by exact Hdt.
      destruct (splitlines (d :: t)) as [|l ls] eqn:E; [apply splitlines_nil in E; discriminate|].
      apply join_cons_head.
Qed.

Lemma norm_nl_lf s : (forall c, In c s -> is_linebreak c = true -> c = LF) -> norm_nl s = s.
Proof.
  induction s as [|c t IH]; intros H; [reflexivity|].
  assert (IH' : norm_nl t = t) by (apply IH; intros; apply H; [right|]; assumption).
  rewrite norm_nl_cons. destruct (is_linebreak c) eqn:Hc.
  - rewrite (H c (or_introl eq_refl) Hc). destruct t as [|d t']; [reflexivity|].
    change (N.eqb LF CR) with false. simpl andb. now rewrite IH'.
  - now rewrite IH'.
Qed.

(** The first line is a prefix of the text. *)
Lemma splitlines_first s l ls : splitlines s = l :: ls -> exists r, s = l ++ r.
Proof.
  revert l ls; induction s as [|c t IH]; intros l ls; [discriminate|].
  rewrite splitlines_cons. destruct (is_linebreak c).
  - destruct t as [|d t']; [intros H; inv H; now exists [c]|].
    destruct (N.eqb c CR && N.eqb d LF); intros H; inv H; now exists (c :: d :: t').
  - destruct (splitlines t) as [|l' ls'] eqn:E; intros H; inv H.
    + exists t. reflexivity.
    + destruct (IH _ _ eq_refl) as [r ->]. exists r. reflexivity.
Qed.

Lemma find_sub_none_prefix p x r : find_sub p (x ++ r) = None -> find_sub p x = None.
Proof.
  rewrite !find_sub_none. intros H k. specialize (H k).
  rewrite skipn_app in H. destruct (prefixb p (skipn k x)) eqn:E; [|reflexivity].
  rewrite (prefixb_app_r _ _ _ E) in H. discriminate.
Qed.

Lemma find_sub_none_tail p c x : find_sub p (c :: x) = None -> find_sub p x = None.
Proof. rewrite !find_sub_none. intros H k. exact (H (S k)). Qed.

(** A string that does not occur in a text does not occur in its lines. *)
Lemma splitlines_no_occurrence p s :
  find_sub p s = None -> forall l, In l (splitlines s) -> find_sub p l = None.
Proof.
  induction s as [|c|c d t IHt IHdt] using pystr_ind2; intros Hs l Hl.
  - contradiction.
  - rewrite splitlines_cons in Hl.
    destruct (is_linebreak c); simpl in Hl; destruct Hl as [<-|[]]; [|exact Hs].
    destruct p; [discriminate|reflexivity].
  - assert (Hdt := find_sub_none_tail _ _ _ Hs).
    rewrite splitlines_cons in Hl. destruct (is_linebreak c).
    + assert (Hnil : find_sub p [] = None) by (destruct p; [discriminate|reflexivity]).
      destruct (N.eqb c CR && N.eqb d LF); destruct Hl as [<-|Hl]; auto.
      apply IHt; [exact (find_sub_none_tail _ _ _ Hdt) | exact Hl].
    + destruct (splitlines (d :: t)) as [|l' ls] eqn:E.
      * apply splitlines_nil in E. discriminate.
      * destruct Hl as [<-|Hl].
        -- destruct (splitlines_first _ _ _ E) as [r Hr]. rewrite Hr in Hs.
           exact (find_sub_none_prefix p (c :: l') r Hs).
        -- apply IHdt; [exact Hdt | right; exact Hl].
Qed.

(** ** Occurrences in stripped strings and prefixes *)

Lemma strip_infix x : exists a b, x = a ++ strip x ++ b.
Proof.
  destruct (lstrip_split x) as (w & _ & Hx & _).
  destruct (rstrip_split (lstrip x)) as (w' & _ & Hl).
  exists w, w'. unfold strip. rewrite <- Hl. exact Hx.
Qed.

Lemma find_sub_none_suffix p w x : find_sub p (w ++ x) = None -> find_sub p x = None.
Proof.
  induction w as [|c w IH]; simpl app; intros H; [exact H|].
  apply IH, (find_sub_none_tail _ c), H.
Qed.

Lemma find_sub_none_strip p x : find_sub p x = None -> find_sub p (strip x) = None.
Proof.
  destruct (strip_infix x) as (a & b & Hx). rewrite Hx at 1. intros H.
  apply find_sub_none_suffix in H. exact (find_sub_none_prefix _ _ _ H).
Qed.

Lemma In_strip c x : In c (strip x) -> In c x.
Proof.
  destruct (strip_infix x) as (a & b & Hx). rewrite Hx at 2. intros H.
  apply in_or_app. right. apply in_or_app. left. exact H.
Qed.

(** Nothing occurs before its first occurrence. *)
Lemma find_sub_firstn_none p t j :
  p <> [] -> find_sub p t = Some j -> find_sub p (firstn j t) = None.
Proof.
  intros Hp Hj. apply find_sub_least in Hj as [_ Hbefore].
  apply find_sub_none. intros k.
  destruct (Nat.lt_ge_cases k j) as [Hk|Hk].
  - destruct (prefixb p (skipn k (firstn j t))) eqn:E; [|reflexivity].
    rewrite <- (Hbefore k Hk), <- (firstn_skipn j t) at 1.
    rewrite skipn_app. symmetry. apply prefixb_app_r, E.
  - rewrite skipn_all2 by (rewrite length_firstn; lia).
    destruct p; [contradiction|reflexivity].
Qed.

Lemma rstrip_last x : rstrip x <> [] -> isspace (last (rstrip x) LF) = false.
Proof.
  unfold rstrip. destruct (lstrip_split (rev x)) as (_ & _ & _ & Hh).
  destruct (lstrip (rev x)) as [|c r]; [contradiction|]. intros _.
  simpl. rewrite last_last. exact Hh.
Qed.

(** A stripped text does not end with a line boundary. *)
Lemma strip_no_trailing_break x : no_trailing_break (strip x).
Proof.
  intros c Hc Hne. unfold strip in *. subst c.
  destruct (is_linebreak (last (rstrip (lstrip x)) LF)) eqn:E; [|reflexivity].
  apply isspace_linebreak in E. rewrite rstrip_last in E by exact Hne. discriminate.
Qed.

(** ** Lines joined by ["\n"] *)

(** A line: no line boundary inside. *)
Definition single_line (l : pystr) : Prop := forall c, In c l -> is_linebreak c = false.

Lemma splitlines_app_lf a b : single_line a -> splitlines (a ++ LF :: b) = a :: splitlines b.
Proof.
  induction a as [|c a IH]; intros Ha; cbn [app].
  - rewrite splitlines_cons. change (is_linebreak LF) with true. cbv iota.
    destruct b as [|d t]; [reflexivity|]. change (N.eqb LF CR) with false. reflexivity.
  - rewrite splitlines_cons, (Ha c (or_introl eq_refl)), IH by (intros d Hd; apply Ha; now right).
    reflexivity.
Qed.

Lemma splitlines_single l : l <> [] -> single_line l -> splitlines l = [l].
Proof.
  induction l as [|c l IH]; intros Hne Hl; [contradiction|].
  rewrite splitlines_cons, (Hl c (or_introl eq_refl)).
  destruct l as [|d l]; [reflexivity|].
  rewrite IH by (discriminate || (intros e He; apply Hl; now right)). reflexivity.
Qed.

(** Round trip: splitting lines joined by ["\n"] gives them back. *)
Lemma splitlines_join ls :
  (forall l, In l ls -> l <> [] /\ single_line l) -> splitlines (join [LF] ls) = ls.
Proof.
  induction ls as [|l ls IH]; intros H; [reflexivity|].
  destruct (H l (or_introl eq_refl)) as [Hne Hl].
  destruct ls as [|m ls]; [exact (splitlines_single l Hne Hl)|].
  change (join [LF] (l :: m :: ls)) with (l ++ LF :: join [LF] (m :: ls)).
  rewrite splitlines_app_lf, IH by (assumption || (intros x Hx; apply H; now right)).
  reflexivity.
Qed.

(** An occurrence of [p] across a separator [c] would hold [c]. *)
Lemma find_sub_none_sep p a c b :
  ~ In c p -> find_sub p a = None -> find_sub p b = None -> find_sub p (a ++ c :: b) = None.
Proof.
  intros Hc Ha Hb. rewrite find_sub_none in Ha, Hb |- *. intros k.
  destruct (prefixb p (skipn k (a ++ c :: b))) eqn:E; [exfalso|reflexivity].
  rewrite skipn_app in E. destruct (Nat.le_gt_cases k (length a)) as [Hk|Hk].
  - replace (k - length a) with 0 in E by lia. cbn [skipn] in E.
    apply prefixb_app_cases in E as [E|(w & -> & Hw)]; [congruence|].
    destruct w as [|d w].
    + rewrite app_nil_r in Ha. specialize (Ha k). now rewrite prefixb_refl in Ha.
    + cbn [prefixb] in Hw. apply andb_true_iff in Hw as [Hd _]. apply N.eqb_eq in Hd. subst d.
      apply Hc, in_or_app. right. now left.
  - rewrite skipn_all2 in E by lia. cbn [app] in E.
    replace (k - length a) with (S (k - length a - 1)) in E by lia. cbn [skipn] in E.
    congruence.
Qed.

Lemma find_sub_none_join p ls :
  p <> [] -> ~ In LF p -> (forall l, In l ls -> find_sub p l = None) -> find_sub p (join [LF] ls) = None.
Proof.
  intros Hp HLF. induction ls as [|l ls IH]; intros H.
  - destruct p; [contradiction | reflexivity].
  - destruct ls as [|m ls]; [apply H; now left|].
    change (join [LF] (l :: m :: ls)) with (l ++ LF :: join [LF] (m :: ls)).
    apply find_sub_none_sep; [exact HLF | apply H; now left | apply IH; intros x Hx; apply H; now right].
Qed.

