(* ===== verification/Sre.v ===== *)
(** * Sre: CPython's regular-expression engine, for the opcodes used

    [re.search(pattern, text, re.DOTALL)] compiles [pattern] with
    [sre_parse]/[sre_compile] and runs the backtracking matcher of
    [_sre.c] at every start position from left to right.  This file models
    - [sre_compile]: the pattern syntax the program uses (literal
      characters, [\s], [.], [*], [*?], one level of capturing group) and
      the opcodes it compiles to: the single-character opcodes ([LITERAL],
      [IN] with [CATEGORY_UNI_SPACE], [ANY], [ANY_ALL]) as [CHAR], the
      single-character repeats [REPEAT_ONE] (greedy) and [MIN_REPEAT_ONE]
      (lazy), and [MARK];
    - [sre_match]: the matcher, with the backtracking order of [_sre.c]:
      [REPEAT_ONE] counts the longest run and then tries the rest of the
      pattern after [n], [n-1], ..., [0] characters; [MIN_REPEAT_ONE]
      tries [0], [1], ..., [n];
    - [search] and [group]: [re.search] and [Match.group(g)].
    The repeat bound [MAXREPEAT] (2^32-1) is never reached by a string the
    model can hold in practice and is not modelled. *)

From Stdlib Require Import Ascii String.
From Stdlib Require Import List Arith NArith Lia Bool.
From S2P Require Import Prelude PyStr.
Import ListNotations.
Open Scope py_scope.

Module Sre.

(** ** Opcodes *)

Inductive charset :=
| LIT (c : pychar)       (** [LITERAL c] *)
| CATEGORY_SPACE         (** [IN [CATEGORY CATEGORY_UNI_SPACE]], i.e. [\s] *)
| ANY                    (** [.] without DOTALL: anything but [\n] *)
| ANY_ALL.               (** [.] under DOTALL *)

Inductive op :=
| CHAR (k : charset)
| REPEAT_ONE (k : charset)
| MIN_REPEAT_ONE (k : charset)
| MARK (i : nat).

Definition in_set (k : charset) (c : pychar) : bool :=
  match k with
  | LIT d => N.eqb d c
  | CATEGORY_SPACE => isspace c
  | ANY => negb (N.eqb c newline)
  | ANY_ALL => true
  end.

(** [_sre_count]: the length of the longest run of characters in [k]. *)
Fixpoint count_run (k : charset) (s : pystr) : nat :=
  match s with
  | c :: s' => if in_set k c then S (count_run k s') else 0
  | [] => 0
  end.

(** ** Compilation of the pattern source *)

Inductive token := TAtom (k : charset) | TStar | TLazyStar | TOpen | TClose.

Definition metachar (c : pychar) : bool :=
  existsb (N.eqb c) (lit "\.*+?()[]{}|^$").

(** [sre_parse] for the supported syntax; [None] where the pattern uses
    syntax outside it. *)
Fixpoint tokenize (dotall : bool) (s : pystr) : option (list token) :=
  match s with
  | [] => Some []
  | c :: r =>
      if N.eqb c (chr "\"%char) then
        match r with
        | d :: r' =>
            if N.eqb d (chr "s"%char) then option_map (cons (TAtom CATEGORY_SPACE)) (tokenize dotall r')
            else None
        | [] => None
        end
      else if N.eqb c (chr "*"%char) then
        match r with
        | d :: r' =>
            if N.eqb d (chr "?"%char) then option_map (cons TLazyStar) (tokenize dotall r')
            else option_map (cons TStar) (tokenize dotall r)
        | [] => Some [TStar]
        end
      else if N.eqb c (chr "."%char) then
        option_map (cons (TAtom (if dotall then ANY_ALL else ANY))) (tokenize dotall r)
      else if N.eqb c (chr "("%char) then option_map (cons TOpen) (tokenize dotall r)
      else if N.eqb c (chr ")"%char) then option_map (cons TClose) (tokenize dotall r)
      else if metachar c then None
      else option_map (cons (TAtom (LIT c))) (tokenize dotall r)
  end.

(** [sre_compile]: group [g] (numbered from 0 here, [g+1] in Python)
    opens with [MARK (2g)] and closes with [MARK (2g+1)]. *)
Fixpoint assemble (ts : list token) (g : nat) (open : option nat) : option (list op) :=
  match ts with
  | [] => match open with None => Some [] | Some _ => None end
  | TAtom k :: TStar :: ts' => option_map (cons (REPEAT_ONE k)) (assemble ts' g open)
  | TAtom k :: TLazyStar :: ts' => option_map (cons (MIN_REPEAT_ONE k)) (assemble ts' g open)
  | TAtom k :: ts' => option_map (cons (CHAR k)) (assemble ts' g open)
  | TOpen :: ts' =>
      match open with
      | None => option_map (cons (MARK (2 * g))) (assemble ts' (S g) (Some g))
      | Some _ => None
      end
  | TClose :: ts' =>
      match open with
      | Some k => option_map (cons (MARK (2 * k + 1))) (assemble ts' g None)
      | None => None
      end
  | TStar :: _ | TLazyStar :: _ => None
  end.

Definition compile (pattern : pystr) (dotall : bool) : option (list op) :=
  match tokenize dotall pattern with
  | Some ts => assemble ts 0 None
  | None => None
  end.

(** ** The matcher *)

(** The state of a successful match: its end position and the marks set
    on the way, latest first. *)
Record mstate := { m_end : nat; m_marks : list (nat * nat) }.

Fixpoint sre_match (code : list op) (pos : nat) (s : pystr)
    (marks : list (nat * nat)) : option mstate :=
  match code with
  | [] => Some {| m_end := pos; m_marks := marks |}
  | CHAR k :: code' =>
      match s with
      | c :: s' => if in_set k c then sre_match code' (S pos) s' marks else None
      | [] => None
      end
  | MARK i :: code' => sre_match code' pos s ((i, pos) :: marks)
  | REPEAT_ONE k :: code' =>
      first_some (fun j => sre_match code' (pos + j) (skipn j s) marks)
                 (rev (seq 0 (S (count_run k s))))
  | MIN_REPEAT_ONE k :: code' =>
      first_some (fun j => sre_match code' (pos + j) (skipn j s) marks)
                 (seq 0 (S (count_run k s)))
  end.

(** [re.search]: the first start position, from 0 to [len(s)], at which
    the code matches. *)
Definition search (code : list op) (s : pystr) : option mstate :=
  first_some (fun i => sre_match code i (skipn i s) []) (seq 0 (S (length s))).

Fixpoint mark_lookup (i : nat) (marks : list (nat * nat)) : option nat :=
  match marks with
  | [] => None
  | (j, p) :: ms => if Nat.eqb i j then Some p else mark_lookup i ms
  end.

(** [m.group(g)] for [g >= 1]; [None] when the group did not take part. *)
Definition group (g : nat) (m : mstate) (s : pystr) : option pystr :=
  match mark_lookup (2 * (g - 1)) (m_marks m), mark_lookup (2 * (g - 1) + 1) (m_marks m) with
  | Some a, Some b => Some (firstn (b - a) (skipn a s))
  | _, _ => None
  end.

(** ** Lemmas *)

Lemma count_run_spec k s :
  (forall j, j < count_run k s -> exists c, nth_error s j = Some c /\ in_set k c = true) /\
  match nth_error s (count_run k s) with Some c => in_set k c = false | None => True end.
Proof.
  induction s as [|c s [IH1 IH2]]; simpl.
  - split; [intros; lia | exact I].
  - destruct (in_set k c) eqn:Hc; simpl.
    + split; [|exact IH2]. intros [|j] Hj; simpl; eauto. apply IH1. lia.
    + split; [intros; lia | exact Hc].
Qed.

Lemma count_run_le k s : count_run k s <= length s.
Proof. induction s as [|c s IH]; simpl; [lia|]. destruct (in_set k c); simpl; lia. Qed.

Lemma count_run_any_all s : count_run ANY_ALL s = length s.
Proof. induction s; simpl; auto. Qed.

(** A run of literal characters matches exactly a prefix. *)
Definition lits (p : pystr) : list op := map (fun c => CHAR (LIT c)) p.

Lemma sre_match_lits p code pos s marks :
  sre_match (lits p ++ code) pos s marks =
  if prefixb p s then sre_match code (pos + length p) (skipn (length p) s) marks else None.
Proof.
  revert pos s; induction p as [|c p IH]; intros pos s; simpl.
  - rewrite Nat.add_0_r. reflexivity.
  - destruct s as [|d s]; [reflexivity|]. simpl. rewrite IH.
    destruct (N.eqb c d); simpl; [|reflexivity].
    rewrite Nat.add_succ_r. reflexivity.
Qed.

Lemma sre_match_mark i code pos s marks :
  sre_match (MARK i :: code) pos s marks = sre_match code pos s ((i, pos) :: marks).
Proof. reflexivity. Qed.

End Sre.
