(* ===== verification/Extract.v ===== *)
(** * Extract: the query extractor of [answer_gen] (rag.py, lines 137-144)

    [extract_sql] is the code: [re.search(r"```sql\s*(.*?)\s*```", text,
    re.DOTALL)], then [group(1).strip()] on a match, and otherwise the
    fallback that strips the text, splits it into lines, drops the lines
    whose stripped form starts with a fence, joins with ["\n"] and strips.
    [extract_spec] is the abstract contract: take the text between the
    first ["```sql"] and the first ["```"] after it, or fall back.  The
    main theorem [extract_sql_spec] shows the regular-expression search
    (the [Sre] model, backtracking included) computes exactly that. *)

From Stdlib Require Import Ascii String.
From Stdlib Require Import List Arith NArith Lia Bool.
From S2P Require Import Prelude PyStr Sre.
Import ListNotations.
Open Scope py_scope.

Module Extract.
Import Sre.

(** ** The code *)

(** The pattern source of line 137. *)
Definition sql_pattern : pystr := <<"```sql\s*(.*?)\s*```">>.

Definition fence : pystr := <<"```">>.
Definition fence_open : pystr := <<"```sql">>.

(** [line.strip().startswith("```")] *)
Definition is_fence_line (line : pystr) : bool := prefixb fence (strip line).

(** Lines 143-144. *)
Definition fallback (text : pystr) : pystr :=
  strip (join [LF] (filter (fun line => negb (is_fence_line line)) (splitlines (strip text)))).

(** Lines 137-144: [sql_match.group(1)] would raise [AttributeError] on
    [None]; the pattern compiles, and [re.search] raises [re.error]
    otherwise. *)
Definition extract_sql (text : pystr) : pyresult pystr :=
  match compile sql_pattern true with
  | None => Raise ReError
  | Some code =>
      match search code text with
      | Some m =>
          match group 1 m text with
          | Some g => Ok (strip g)
          | None => Raise AttributeError
          end
      | None => Ok (fallback text)
      end
  end.

(** ** The abstract contract *)

(** The text between the first ["```sql"] and the first ["```"] after
    it. *)
Definition fenced_block (text : pystr) : option pystr :=
  match find_sub fence_open text with
  | Some i =>
      let t := skipn (i + length fence_open) text in
      match find_sub fence t with
      | Some j => Some (firstn j t)
      | None => None
      end
  | None => None
  end.

Definition extract_spec (text : pystr) : pystr :=
  match fenced_block text with
  | Some b => strip b
  | None => fallback text
  end.

(** ** The compiled pattern *)

Definition close_code : list op := REPEAT_ONE CATEGORY_SPACE :: lits fence.
Definition group_code : list op := MIN_REPEAT_ONE ANY_ALL :: MARK 1 :: close_code.
Definition body_code : list op := REPEAT_ONE CATEGORY_SPACE :: MARK 0 :: group_code.
Definition sql_code : list op := lits fence_open ++ body_code.

Lemma compile_sql_pattern : compile sql_pattern true = Some sql_code.
Proof. reflexivity. Qed.

(** ** Lemmas on the whitespace runs *)

Lemma count_space_skipn u : skipn (count_run CATEGORY_SPACE u) u = lstrip u.
Proof.
  induction u as [|c u IH]; simpl; [reflexivity|].
  destruct (isspace c); simpl; auto.
Qed.

Lemma count_space_firstn u : all_space (firstn (count_run CATEGORY_SPACE u) u).
Proof.
  induction u as [|c u IH]; simpl; [auto with pystr|].
  destruct (isspace c) eqn:Hc; simpl; [apply all_space_cons; auto | auto with pystr].
Qed.

Lemma count_space_split u :
  u = firstn (count_run CATEGORY_SPACE u) u ++ lstrip u.
Proof. rewrite <- count_space_skipn. symmetry. apply firstn_skipn. Qed.

Lemma count_space_length u : count_run CATEGORY_SPACE u = length u - length (lstrip u).
Proof.
  pose proof (count_space_split u) as H. apply (f_equal (@length pychar)) in H.
  rewrite length_app, length_firstn in H.
  pose proof (count_run_le CATEGORY_SPACE u). lia.
Qed.

Lemma prefixb_fence_space c r : isspace c = true -> prefixb fence (c :: r) = false.
Proof.
  intros Hc. change (prefixb fence (c :: r)) with (N.eqb backtick c && prefixb <<"``">> r).
  destruct (N.eqb_spec backtick c) as [<-|]; [|reflexivity].
  now rewrite backtick_not_space in Hc.
Qed.

Lemma prefixb_fence_lstrip x : prefixb fence x = true -> lstrip x = x.
Proof.
  destruct x as [|c x]; [discriminate|].
  change (prefixb fence (c :: x)) with (N.eqb backtick c && prefixb <<"``">> x).
  destruct (N.eqb_spec backtick c) as [<-|]; [|discriminate].
  intros _. apply lstrip_nonspace, backtick_not_space.
Qed.

(** A fence cannot start inside a run of whitespace. *)
Lemma find_fence_space w x :
  all_space w -> find_sub fence (w ++ x) = option_map (Nat.add (length w)) (find_sub fence x).
Proof.
  intros Hw. apply find_sub_app_skip. intros k Hk.
  pose proof (all_space_skipn k w Hw) as Hs.
  destruct (skipn k w) as [|c r] eqn:E.
  - apply (f_equal (@length pychar)) in E. rewrite length_skipn in E. simpl in E. lia.
  - apply prefixb_fence_space. apply Hs. left. reflexivity.
Qed.

Lemma find_fence_lstrip t :
  prefixb fence (lstrip t) = true -> find_sub fence t = Some (count_run CATEGORY_SPACE t).
Proof.
  intros H. rewrite (count_space_split t) at 1.
  rewrite find_fence_space by apply count_space_firstn.
  rewrite (find_sub_prefix _ _ H). simpl. rewrite length_firstn, Nat.add_0_r.
  pose proof (count_run_le CATEGORY_SPACE t). f_equal. lia.
Qed.

(** ** The closing part: [\s*```] *)

Lemma match_close pos t marks :
  sre_match close_code pos t marks =
  if prefixb fence (lstrip t)
  then Some {| m_end := pos + count_run CATEGORY_SPACE t + 3; m_marks := marks |}
  else None.
Proof.
  unfold close_code. cbn [sre_match]. rewrite rev_seq_S, Nat.add_0_l. cbn [first_some].
  rewrite <- (app_nil_r (lits fence)), sre_match_lits, count_space_skipn.
  destruct (prefixb fence (lstrip t)) eqn:Hp; [reflexivity|].
  apply first_some_none. intros j Hj. apply in_rev, in_seq in Hj.
  rewrite sre_match_lits.
  destruct (count_run_spec CATEGORY_SPACE t) as [Hsp _].
  destruct (Hsp j ltac:(lia)) as (c & Hc & Hcs).
  rewrite (nth_error_skipn_cons j t c Hc), prefixb_fence_space by exact Hcs.
  reflexivity.
Qed.

(** ** The group: [(.*?)] followed by [\s*```] *)

Lemma group_code_unfold pos t marks :
  sre_match group_code pos t marks =
  first_some (fun j => sre_match close_code (pos + j) (skipn j t) ((1, pos + j) :: marks))
             (seq 0 (S (length t))).
Proof. unfold group_code. cbn [sre_match]. now rewrite count_run_any_all. Qed.

(** One step of the lazy loop: try to close here, else advance. *)
Lemma group_code_cons pos c t marks :
  sre_match group_code pos (c :: t) marks =
  match sre_match close_code pos (c :: t) ((1, pos) :: marks) with
  | Some r => Some r
  | None => sre_match group_code (S pos) t marks
  end.
Proof.
  rewrite !group_code_unfold. cbn [length].
  change (seq 0 (S (S (length t)))) with (0 :: seq 1 (S (length t))).
  cbn [first_some skipn]. rewrite Nat.add_0_r.
  destruct (sre_match close_code pos (c :: t) ((1, pos) :: marks)); [reflexivity|].
  rewrite first_some_seq_shift. apply first_some_ext. intros j _.
  cbn [skipn]. now rewrite Nat.add_succ_r.
Qed.

(** The lazy group ends where the trailing whitespace before the first
    fence begins. *)
Lemma match_group pos t marks :
  sre_match group_code pos t marks =
  match find_sub fence t with
  | Some j => Some {| m_end := pos + j + 3;
                      m_marks := (1, pos + length (rstrip (firstn j t))) :: marks |}
  | None => None
  end.
Proof.
  revert pos; induction t as [|c t IH]; intros pos.
  - rewrite group_code_unfold. reflexivity.
  - rewrite group_code_cons, match_close.
    destruct (prefixb fence (lstrip (c :: t))) eqn:Hp.
    + rewrite (find_fence_lstrip _ Hp), rstrip_all_space by apply count_space_firstn.
      simpl length. now rewrite Nat.add_0_r.
    + assert (Hc : prefixb fence (c :: t) = false).
      { destruct (prefixb fence (c :: t)) eqn:E; [|reflexivity].
        rewrite (prefixb_fence_lstrip _ E) in Hp. congruence. }
      rewrite IH. cbn [find_sub]. rewrite Hc.
      destruct (find_sub fence t) as [j|] eqn:Hj; simpl option_map; [|reflexivity].
      cbn [firstn]. rewrite rstrip_cons.
      * simpl length. now rewrite ?Nat.add_succ_l, ?Nat.add_succ_r.
      * destruct (isspace c) eqn:Hs; [right|left; reflexivity].
        intros Hnil. apply rstrip_nil_all_space in Hnil.
        apply find_sub_least in Hj as [Hj _].
        rewrite lstrip_cons_space, <- (firstn_skipn j t), lstrip_app_space,
          prefixb_fence_lstrip in Hp by assumption.
        congruence.
Qed.

(** ** The body: [\s*(.*?)\s*```] after the opening fence *)

Lemma skipn_in_space_run k u :
  k <= count_run CATEGORY_SPACE u ->
  skipn k u = skipn k (firstn (count_run CATEGORY_SPACE u) u) ++ lstrip u.
Proof.
  intros Hk. rewrite (count_space_split u) at 1.
  rewrite skipn_app, length_firstn.
  pose proof (count_run_le CATEGORY_SPACE u).
  replace (k - Nat.min (count_run CATEGORY_SPACE u) (length u)) with 0 by lia.
  reflexivity.
Qed.

Lemma find_fence_count u :
  find_sub fence u =
  option_map (Nat.add (count_run CATEGORY_SPACE u)) (find_sub fence (lstrip u)).
Proof.
  rewrite (count_space_split u) at 1.
  rewrite find_fence_space by apply count_space_firstn.
  rewrite length_firstn. pose proof (count_run_le CATEGORY_SPACE u).
  now replace (Nat.min (count_run CATEGORY_SPACE u) (length u)) with (count_run CATEGORY_SPACE u) by lia.
Qed.

(** The greedy [\s*] keeps the whole run: giving characters back cannot
    help, since a fence does not start with a space. *)
Lemma match_body pos u :
  sre_match body_code pos u [] =
  match find_sub fence (lstrip u) with
  | Some j =>
      let a := pos + count_run CATEGORY_SPACE u in
      Some {| m_end := a + j + 3;
              m_marks := [(1, a + length (rstrip (firstn j (lstrip u)))); (0, a)] |}
  | None => None
  end.
Proof.
  unfold body_code. cbn [sre_match]. rewrite rev_seq_S, Nat.add_0_l. cbn [first_some].
  rewrite count_space_skipn, match_group.
  destruct (find_sub fence (lstrip u)) as [j|] eqn:Hj; [reflexivity|].
  apply first_some_none. intros k Hk. apply in_rev, in_seq in Hk.
  rewrite match_group, skipn_in_space_run, find_fence_space, Hj by
    (try lia; apply all_space_skipn, count_space_firstn).
  reflexivity.
Qed.

Lemma body_none_iff pos u :
  sre_match body_code pos u [] = None <-> find_sub fence u = None.
Proof.
  rewrite match_body, (find_fence_count u).
  destruct (find_sub fence (lstrip u)); simpl; split; intros H;
    solve [discriminate H | reflexivity].
Qed.

(** ** The search loop *)

(** Two opening fences cannot overlap. *)
Lemma fence_open_no_overlap s i d :
  prefixb fence_open (skipn i s) = true -> 0 < d < length fence_open ->
  prefixb fence_open (skipn (i + d) s) = false.
Proof.
  intros Hi Hd. apply prefixb_spec in Hi as [r Hr].
  rewrite <- skipn_skipn', Hr.
  destruct d as [|[|[|[|[|[|d]]]]]]; simpl in Hd; try lia; reflexivity.
Qed.

(** An opening fence contains a fence. *)
Lemma fence_open_fence x : prefixb fence_open x = true -> prefixb fence x = true.
Proof. intros H. apply prefixb_spec in H as [r ->]. reflexivity. Qed.

Lemma match_at i s :
  sre_match sql_code i (skipn i s) [] =
  if prefixb fence_open (skipn i s)
  then sre_match body_code (i + length fence_open) (skipn (i + length fence_open) s) []
  else None.
Proof. unfold sql_code. now rewrite sre_match_lits, skipn_skipn'. Qed.

(** [re.search] stops at the first opening fence: a later one could only
    succeed if the first one did. *)
Lemma search_sql s :
  search sql_code s =
  match find_sub fence_open s with
  | Some i => sre_match body_code (i + length fence_open) (skipn (i + length fence_open) s) []
  | None => None
  end.
Proof.
  unfold search. destruct (find_sub fence_open s) as [i|] eqn:Hf.
  - apply find_sub_least in Hf as [Hi Hbefore].
    assert (Hlen : i < S (length s)).
    { destruct (Nat.le_gt_cases i (length s)); [lia|].
      rewrite skipn_all2 in Hi by lia. discriminate. }
    destruct (sre_match body_code (i + length fence_open)
                (skipn (i + length fence_open) s) []) as [m|] eqn:Hb.
    + apply (first_some_seq_at _ 0 _ i); [exact Hlen| |].
      * intros j Hj. cbv beta. rewrite Nat.add_0_l, match_at, Hbefore by exact Hj. reflexivity.
      * cbv beta. now rewrite Nat.add_0_l, match_at, Hi.
    + apply first_some_seq_none. intros j _. cbv beta. rewrite Nat.add_0_l, match_at.
      destruct (prefixb fence_open (skipn j s)) eqn:Hj; [|reflexivity].
      destruct (Nat.lt_trichotomy j i) as [Hlt|[->|Hgt]].
      * rewrite Hbefore in Hj by exact Hlt. discriminate.
      * exact Hb.
      * exfalso. destruct (Nat.lt_ge_cases j (i + length fence_open)) as [Hnear|Hfar].
        -- replace j with (i + (j - i)) in Hj by lia.
           rewrite fence_open_no_overlap in Hj by (auto; lia). discriminate.
        -- apply body_none_iff in Hb. pose proof (proj1 (find_sub_none _ _) Hb) as Hn.
           clear Hb. rename Hn into Hb.
           specialize (Hb (j - (i + length fence_open))).
           rewrite skipn_skipn', Nat.add_sub_assoc, (Nat.add_comm _ j), Nat.add_sub,
             fence_open_fence in Hb by (auto; lia).
           discriminate.
  - apply first_some_seq_none. intros j _. cbv beta. rewrite Nat.add_0_l, match_at.
    apply find_sub_none with (k := j) in Hf. now rewrite Hf.
Qed.

(** ** The extractor meets its contract *)

Lemma firstn_count_lstrip u j :
  firstn (count_run CATEGORY_SPACE u + j) u = firstn (count_run CATEGORY_SPACE u) u ++ firstn j (lstrip u).
Proof.
  rewrite (count_space_split u) at 2.
  rewrite firstn_app, firstn_firstn, length_firstn.
  pose proof (count_run_le CATEGORY_SPACE u).
  replace (Nat.min (count_run CATEGORY_SPACE u + j) (count_run CATEGORY_SPACE u))
    with (count_run CATEGORY_SPACE u) by lia.
  replace (count_run CATEGORY_SPACE u + j - Nat.min (count_run CATEGORY_SPACE u) (length u))
    with j by lia.
  reflexivity.
Qed.

Lemma search_group s :
  match search sql_code s with Some m => group 1 m s | None => None end =
  option_map (fun b => rstrip (lstrip b)) (fenced_block s).
Proof.
  rewrite search_sql. unfold fenced_block.
  destruct (find_sub fence_open s) as [i|]; [|reflexivity].
  remember (skipn (i + length fence_open) s) as u eqn:Hu.
  rewrite match_body, (find_fence_count u).
  destruct (find_sub fence (lstrip u)) as [j|]; [|reflexivity].
  cbn [option_map group m_marks mark_lookup Nat.eqb Nat.sub Nat.mul Nat.add].
  rewrite Nat.add_sub_swap, Nat.sub_diag, Nat.add_0_l by lia.
  rewrite <- skipn_skipn', <- Hu, count_space_skipn.
  rewrite (firstn_count_lstrip u j), lstrip_app_space, lstrip_firstn_lstrip
    by apply count_space_firstn.
  rewrite <- (firstn_skipn j (lstrip u)) at 2. now rewrite firstn_rstrip.
Qed.

(** A match always sets both marks of the group. *)
Lemma search_group_some s m :
  search sql_code s = Some m -> exists g, group 1 m s = Some g.
Proof.
  rewrite search_sql. destruct (find_sub fence_open s); [|discriminate].
  rewrite match_body. destruct (find_sub fence _); [|discriminate].
  intros H. inv H. eexists. reflexivity.
Qed.

Lemma extract_sql_eq text : extract_sql text = Ok (extract_spec text).
Proof.
  unfold extract_sql, extract_spec. rewrite compile_sql_pattern.
  pose proof (search_group text) as H.
  destruct (search sql_code text) as [m|] eqn:Hs;
    destruct (fenced_block text) as [b|]; simpl in H; try discriminate.
  - rewrite H. unfold strip. now rewrite lstrip_rstrip, rstrip_idem, lstrip_idem.
  - destruct (search_group_some _ _ Hs) as [g Hg]. congruence.
  - reflexivity.
Qed.

(** ** Consequences for the three cases of the specification *)

Lemma fence_open_starts_text pre x :
  find_sub fence_open pre = None ->
  find_sub fence_open (pre ++ fence_open ++ x) = Some (length pre).
Proof.
  intros Hpre. rewrite find_sub_app_skip.
  - rewrite find_sub_prefix by apply prefixb_app. simpl. now rewrite Nat.add_0_r.
  - intros k Hk. destruct (Nat.le_gt_cases (length fence_open) (length (skipn k pre))) as [Hl|Hl].
    + rewrite prefixb_app_inv by exact Hl.
      exact (proj1 (find_sub_none _ _) Hpre k).
    + destruct (prefixb fence_open (skipn k pre ++ fence_open ++ x)) eqn:E; [|reflexivity].
      pose proof (fence_open_no_overlap (skipn k pre ++ fence_open ++ x) 0 (length (skipn k pre)))
        as Hno.
      rewrite skipn_0, Nat.add_0_l, skipn_app, skipn_all, Nat.sub_diag, skipn_0, app_nil_l,
        prefixb_app in Hno.
      rewrite length_skipn in *. exfalso. specialize (Hno E ltac:(lia)). discriminate.
Qed.

Lemma fence_ends_body body post :
  find_sub fence (body ++ <<"``">>) = None ->
  find_sub fence (body ++ fence ++ post) = Some (length body).
Proof.
  intros Hb. rewrite find_sub_app_skip.
  - rewrite find_sub_prefix by apply prefixb_app. simpl. now rewrite Nat.add_0_r.
  - intros k Hk. pose proof (proj1 (find_sub_none _ _) Hb k) as Hk'.
    rewrite skipn_app in Hk'. replace (k - length body) with 0 in Hk' by lia.
    change (fence ++ post) with (<<"``">> ++ backtick :: post).
    rewrite app_assoc, prefixb_app_inv; [exact Hk'|].
    rewrite length_app, length_skipn. simpl. lia.
Qed.

Lemma extract_surrounded_eq pre body post :
  find_sub fence_open pre = None ->
  find_sub fence (body ++ <<"``">>) = None ->
  extract_sql (pre ++ fence_open ++ body ++ fence ++ post) = Ok (strip body).
Proof.
  intros Hpre Hbody. rewrite extract_sql_eq. unfold extract_spec, fenced_block.
  rewrite fence_open_starts_text by exact Hpre.
  assert (Hs : skipn (length pre + length fence_open) (pre ++ fence_open ++ body ++ fence ++ post)
               = body ++ fence ++ post).
  { rewrite app_assoc, <- length_app, skipn_app, skipn_all, Nat.sub_diag. reflexivity. }
  rewrite Hs, fence_ends_body by exact Hbody.
  rewrite firstn_app, firstn_all, Nat.sub_diag. cbn [firstn]. now rewrite app_nil_r.
Qed.

Lemma no_fence_no_block text : find_sub fence text = None -> fenced_block text = None.
Proof.
  intros H. unfold fenced_block. destruct (find_sub fence_open text) as [i|] eqn:E; [|reflexivity].
  exfalso. apply find_sub_least in E as [E _]. apply fence_open_fence in E.
  rewrite (proj1 (find_sub_none _ _) H i) in E. discriminate.
Qed.

Lemma extract_no_fence_eq text :
  find_sub fence text = None -> extract_sql text = Ok (strip (norm_nl (strip text))).
Proof.
  intros H. rewrite extract_sql_eq. unfold extract_spec.
  rewrite no_fence_no_block by exact H. unfold fallback. do 2 f_equal.
  rewrite filter_all.
  - apply join_splitlines, strip_no_trailing_break.
  - intros l Hl. unfold is_fence_line.
    pose proof (splitlines_no_occurrence _ _ (find_sub_none_strip _ _ H) l Hl) as Hl'.
    apply find_sub_none_strip in Hl'.
    pose proof (proj1 (find_sub_none _ _) Hl' 0) as H0. cbn [skipn] in H0.
    now rewrite H0.
Qed.

(** When, moreover, ["\n"] is the only line boundary in the text, the
    fallback returns the stripped text unchanged. *)
Theorem extract_no_fence_lf text :
  find_sub fence text = None ->
  (forall c, In c text -> is_linebreak c = true -> c = LF) ->
  extract_sql text = Ok (strip text).
Proof.
  intros H Hlf. rewrite extract_no_fence_eq, norm_nl_lf, strip_idem by
    (auto; intros c Hc; apply Hlf, In_strip, Hc).
  reflexivity.
Qed.

(** A text with [\r\n] line endings and no fence: the fallback does not
    return it unchanged. *)
Lemma extract_crlf_normalised :
  extract_sql (<<"SELECT 1">> ++ [CR; LF] ++ <<"FROM t">>) = Ok (<<"SELECT 1">> ++ [LF] ++ <<"FROM t">>).
Proof. vm_compute. reflexivity. Qed.

(** Replies are Unicode: an ideographic space (U+3000) after the
    opening fence and a line separator (U+2028) before the closing one are
    [\s] and are stripped; without fences, a line separator is a line
    boundary of the fallback and becomes ["\n"]. *)
Theorem extract_unicode_space :
  extract_sql (fence_open ++ [12288%N] ++ <<"SELECT 1;">> ++ [8232%N] ++ fence) = Ok <<"SELECT 1;">> /\
  extract_sql (<<"SELECT 1;">> ++ [8232%N] ++ <<"FROM x">>) = Ok (<<"SELECT 1;">> ++ [LF] ++ <<"FROM x">>).
Proof. split; vm_compute; reflexivity. Qed.

(** (C17) A query taken from a fenced block never contains a fence
    marker. *)
Theorem extract_fenced_no_fence text :
  fenced_block text <> None ->
  exists q, extract_sql text = Ok q /\ find_sub fence q = None.
Proof.
  intros Hb. rewrite extract_sql_eq. unfold extract_spec.
  destruct (fenced_block text) as [b|] eqn:E; [|contradiction].
  exists (strip b). split; [reflexivity|]. apply find_sub_none_strip.
  unfold fenced_block in E. destruct (find_sub fence_open text); [|discriminate].
  destruct (find_sub fence _) as [j|] eqn:Hj; [|discriminate]. inv E.
  apply find_sub_firstn_none; [discriminate | exact Hj].
Qed.

(** ** The extractor's properties *)

(** (C3) The group captured by [re.search] is the text between the first
    opening fence and the first closing fence after it, without its
    leading and trailing whitespace; there is no match exactly when there
    is no such fenced block. *)
Theorem search_group_spec s :
  match search sql_code s with Some m => group 1 m s | None => None end =
  option_map (fun b => rstrip (lstrip b)) (fenced_block s).
Proof. apply search_group. Qed.

(** (C2) The extractor as written (compile, search, [group(1).strip()],
    or the fallback) never raises, and returns the stripped fenced block
    when there is one and the fallback's result otherwise. *)
Theorem extract_sql_spec text : extract_sql text = Ok (extract_spec text).
Proof. apply extract_sql_eq. Qed.

(** (C6) A well-formed fenced block is extracted whatever prose surrounds
    it: when the text before it has no opening fence and its body does
    not run into the closing fence, the result is the stripped body. *)
Theorem extract_surrounded pre body post :
  find_sub fence_open pre = None ->
  find_sub fence (body ++ <<"``">>) = None ->
  extract_sql (pre ++ fence_open ++ body ++ fence ++ post) = Ok (strip body).
Proof. apply extract_surrounded_eq. Qed.

(** (C13) Without any fence marker the fallback keeps every line: the
    result is the stripped text with its line boundaries normalised to
    ["\n"] ([\r\n], [\r], [\x0b], [\x0c], [\x1c]-[\x1e], [\x85]). *)
Theorem extract_no_fence text :
  find_sub fence text = None -> extract_sql text = Ok (strip (norm_nl (strip text))).
Proof. apply extract_no_fence_eq. Qed.

(** ** Witnesses *)

Lemma extract_surrounded_witness :
  find_sub fence_open <<"Here is the query: ">> = None /\
  find_sub fence <<" SELECT `a` FROM t ``">> = None /\
  extract_sql (<<"Here is the query: ">> ++ fence_open ++ <<" SELECT `a` FROM t ">> ++ fence ++ <<" done">>)
  = Ok (strip <<" SELECT `a` FROM t ">>).
Proof.
  split; [reflexivity|]. split; [reflexivity|].
  apply extract_surrounded; reflexivity.
Defined.

Lemma extract_no_fence_witness :
  find_sub fence (<<"  SELECT 1">> ++ [CR; LF] ++ <<"FROM t ">>) = None /\
  extract_sql (<<"  SELECT 1">> ++ [CR; LF] ++ <<"FROM t ">>)
  = Ok (strip (norm_nl (strip (<<"  SELECT 1">> ++ [CR; LF] ++ <<"FROM t ">>)))).
Proof. split; [reflexivity|]. apply extract_no_fence. reflexivity. Defined.

Lemma extract_no_fence_lf_witness :
  find_sub fence (<<" SELECT 1">> ++ [LF] ++ <<"FROM t ">>) = None /\
  (forall c, In c (<<" SELECT 1">> ++ [LF] ++ <<"FROM t ">>) -> is_linebreak c = true -> c = LF) /\
  extract_sql (<<" SELECT 1">> ++ [LF] ++ <<"FROM t ">>) = Ok (strip (<<" SELECT 1">> ++ [LF] ++ <<"FROM t ">>)).
Proof.
  assert (Hlf : forall c, In c (<<" SELECT 1">> ++ [LF] ++ <<"FROM t ">>) ->
                          is_linebreak c = true -> c = LF).
  { intros c Hc. repeat (destruct Hc as [<-|Hc]; [first [reflexivity | discriminate] |]). destruct Hc. }
  split; [reflexivity|]. split; [exact Hlf|].
  apply extract_no_fence_lf; [reflexivity | exact Hlf].
Defined.

Lemma extract_fenced_no_fence_witness :
  fenced_block (fence_open ++ <<" SELECT 1 ">> ++ fence) <> None /\
  exists q, extract_sql (fence_open ++ <<" SELECT 1 ">> ++ fence) = Ok q /\ find_sub fence q = None.
Proof.
  assert (H : fenced_block (fence_open ++ <<" SELECT 1 ">> ++ fence) <> None) by discriminate.
  split; [exact H|]. apply extract_fenced_no_fence. exact H.
Defined.

(** ** Rendering and extracting a query *)

(** A reply that is just a query in a SQL fence, as the prompt asks. *)
Definition render_sql (q : pystr) : pystr := fence_open ++ [LF] ++ q ++ [LF] ++ fence.

Lemma prefixb_fence_other c r : c <> backtick -> prefixb fence (c :: r) = false.
Proof.
  intros Hc. change (prefixb fence (c :: r)) with (N.eqb backtick c && prefixb <<"``">> r).
  destruct (N.eqb_spec backtick c) as [<-|]; [contradiction|reflexivity].
Qed.

(** Text without a backtick followed by two backticks holds no fence. *)
Lemma no_backtick_fence w :
  (forall c, In c w -> c <> backtick) -> find_sub fence (w ++ <<"``">>) = None.
Proof.
  intros Hw. apply find_sub_none. intros k. rewrite skipn_app.
  destruct (Nat.lt_ge_cases k (length w)) as [Hlt|Hge].
  - destruct (skipn k w) as [|c r] eqn:E.
    + apply (f_equal (@length pychar)) in E. rewrite length_skipn in E. cbn in E. lia.
    + apply prefixb_fence_other, Hw. rewrite <- (firstn_skipn k w), E.
      apply in_or_app. right. now left.
  - rewrite skipn_all2 by exact Hge. cbn [app].
    destruct (prefixb fence _) eqn:E; [|reflexivity].
    apply prefixb_length in E. rewrite length_skipn in E.
    change (length fence) with 3 in E. change (length <<"``">>) with 2 in E. lia.
Qed.

Lemma strip_lf_around q : strip (LF :: q ++ [LF]) = strip q.
Proof.
  unfold strip. rewrite lstrip_cons_space by reflexivity.
  rewrite <- !lstrip_rstrip, rstrip_app_space; [reflexivity|].
  intros c [<-|[]]. reflexivity.
Qed.

(** (C23) Round trip: a query without backticks and without surrounding
    whitespace, rendered in a SQL fence, is extracted unchanged. *)
Theorem extract_render_roundtrip q :
  (forall c, In c q -> c <> backtick) -> strip q = q -> extract_sql (render_sql q) = Ok q.
Proof.
  intros Hb Hs. unfold render_sql.
  replace (fence_open ++ [LF] ++ q ++ [LF] ++ fence)
    with ([] ++ fence_open ++ (LF :: q ++ [LF]) ++ fence ++ [])
    by (cbn [app]; now rewrite app_nil_r, <- app_assoc).
  rewrite extract_surrounded_eq.
  - now rewrite strip_lf_around, Hs.
  - reflexivity.
  - apply no_backtick_fence. intros c [<-|Hc]; [discriminate|].
    apply in_app_or in Hc as [Hc|[<-|[]]]; [exact (Hb c Hc) | discriminate].
Qed.

(** (C24) The specification's edge case: a reply with no fenced block
    whose lines are all fence lines (the empty reply included) gives the
    empty query, which is still executed. *)
Theorem extract_all_fence_lines text :
  fenced_block text = None ->
  (forall l, In l (splitlines (strip text)) -> is_fence_line l = true) ->
  extract_sql text = Ok [].
Proof.
  intros Hb Hl. rewrite extract_sql_eq. unfold extract_spec, fallback. rewrite Hb.
  rewrite filter_none; [reflexivity|]. intros l Hin. now rewrite (Hl l Hin).
Qed.

(** The specification says a reply with no non-fence line gives the
    empty query; a one-line reply ["```sql SELECT 1 ```"] has only a fence
    line, and the regular expression extracts ["SELECT 1"] from it. *)
Theorem extract_one_line_block :
  (forall l, In l (splitlines (strip <<"```sql SELECT 1 ```">>)) -> is_fence_line l = true) /\
  extract_sql <<"```sql SELECT 1 ```">> = Ok <<"SELECT 1">>.
Proof.
  split; [|vm_compute; reflexivity].
  intros l Hl. vm_compute in Hl. destruct Hl as [<-|[]]. reflexivity.
Qed.

Lemma extract_render_roundtrip_witness :
  (forall c, In c <<"SELECT 1;">> -> c <> backtick) /\ strip <<"SELECT 1;">> = <<"SELECT 1;">> /\
  extract_sql (render_sql <<"SELECT 1;">>) = Ok <<"SELECT 1;">>.
Proof.
  assert (Hb : forall c, In c <<"SELECT 1;">> -> c <> backtick).
  { intros c Hc. vm_compute in Hc. unfold backtick.
    repeat (destruct Hc as [<-|Hc]; [discriminate|]). destruct Hc. }
  split; [exact Hb | split; [reflexivity|]].
  apply extract_render_roundtrip; [exact Hb | reflexivity].
Defined.

Lemma extract_all_fence_lines_witness :
  fenced_block fence_open = None /\
  (forall l, In l (splitlines (strip fence_open)) -> is_fence_line l = true) /\
  extract_sql fence_open = Ok [].
Proof.
  assert (Hl : forall l, In l (splitlines (strip fence_open)) -> is_fence_line l = true).
  { intros l Hl. vm_compute in Hl. destruct Hl as [<-|[]]. reflexivity. }
  split; [reflexivity | split; [exact Hl|]].
  apply extract_all_fence_lines; [reflexivity | exact Hl].
Defined.

End Extract.
