(* ===== verification/PyFloat.v ===== *)
(** * PyFloat: [round(answer, 2)] on binary64 (rag.py, line 162)

    A float cell of a pandas result is a [numpy.float64] (a subclass of
    Python [float], so [isinstance(answer, float)] holds), and
    [round(numpy.float64, 2)] is numpy's [around]: multiply by [100.0],
    [rint] (round half to even), divide by [100.0], each an IEEE
    operation.  A float in an [object] column is a Python [float], whose
    [round(x, 2)] is CPython's [double_round]: the exact binary value is
    rounded half-to-even to a multiple of 0.01 ([_Py_dg_dtoa] mode 3) and
    the decimal result is read back correctly rounded ([_Py_dg_strtod]).
    Both are modelled on the Standard Library's [SpecFloat] (binary64:
    [prec = 53], [emax = 1024]); [rhe_div] is the exact round-half-even
    quotient both rely on. *)

From Stdlib Require Import ZArith Lia SpecFloat.
Local Open Scope Z_scope.

Module PyFloat.

Definition prec : Z := 53.
Definition emax : Z := 1024.

Definition fmul := SFmul prec emax.
Definition fdiv := SFdiv prec emax.

(** The double nearest to the integer [z] (exact below 2^53). *)
Definition of_Z (z : Z) : spec_float := binary_normalize prec emax z 0 false.

(** [100.0], i.e. [power_of_ten(2)] in numpy and the divisor of CPython's
    decimal string ["...e-2"]. *)
Definition f100 : spec_float := of_Z 100.

(** The double nearest to [k / 10^d]: what the Python literal with those
    digits denotes. *)
Definition float_lit (k : Z) (d : nat) : spec_float := fdiv (of_Z k) (of_Z (10 ^ Z.of_nat d)).

(** [n / d] rounded half to even, for [d > 0]. *)
Definition rhe_div (n d : Z) : Z :=
  let q := n / d in
  let r := n mod d in
  match Z.compare (2 * r) d with
  | Lt => q
  | Gt => q + 1
  | Eq => if Z.even q then q else q + 1
  end.

(** IEEE [roundToIntegralTiesToEven], numpy's [rint]; the sign of a zero
    result is kept. *)
Definition rint (x : spec_float) : spec_float :=
  match x with
  | S754_finite s m e =>
      if (0 <=? e)%Z then x
      else
        let k := rhe_div (Z.pos m) (2 ^ (- e)) in
        binary_normalize prec emax (if s then (- k)%Z else k) 0 s
  | _ => x
  end.

(** [round(numpy.float64(x), 2)]: numpy's [around] for [decimals = 2]. *)
Definition np_round2 (x : spec_float) : spec_float := fdiv (rint (fmul x f100)) f100.

(** [round(x, 2)] for a Python [float]: nans and infinities round to
    themselves; otherwise the correctly rounded hundredths [k], read back
    as the double nearest to [k / 100], with the sign of [x] on a zero. *)
Definition py_round2 (x : spec_float) : spec_float :=
  match x with
  | S754_finite s m e =>
      let k :=
        if (0 <=? e)%Z then (Z.pos m * 100 * 2 ^ e)%Z
        else rhe_div (Z.pos m * 100) (2 ^ (- e)) in
      match k with
      | Z0 => S754_zero s
      | Zpos p => fdiv (S754_finite s p 0) f100
      | Zneg _ => S754_nan
      end
  | _ => x
  end.

(** ** Lemmas on [rhe_div] *)

Section RoundHalfEven.
Variables n d : Z.
Hypothesis Hd : (0 < d)%Z.

Lemma rhe_div_cases :
  rhe_div n d = n / d \/ rhe_div n d = n / d + 1.
Proof.
  unfold rhe_div. destruct (Z.compare _ _); [destruct (Z.even _)| |]; auto.
Qed.

(** The quotient is within half a unit of [n / d]. *)
Lemma rhe_div_bound : (2 * Z.abs (n - rhe_div n d * d) <= d)%Z.
Proof.
  pose proof (Z.div_mod n d ltac:(lia)) as Hdm.
  pose proof (Z.mod_pos_bound n d Hd) as Hm.
  unfold rhe_div.
  destruct (Z.compare_spec (2 * (n mod d)) d) as [Heq|Hlt|Hgt];
    [destruct (Z.even (n / d))| |]; nia.
Qed.

(** Ties go to the even neighbour. *)
Lemma rhe_div_tie_even : (2 * (n mod d) = d)%Z -> Z.even (rhe_div n d) = true.
Proof.
  intros Htie. unfold rhe_div. rewrite Htie, Z.compare_refl.
  destruct (Z.even (n / d)) eqn:E; [exact E|].
  rewrite Z.even_add, E. reflexivity.
Qed.

Lemma rhe_div_exact : (n mod d = 0)%Z -> rhe_div n d = n / d.
Proof.
  intros H0. unfold rhe_div. rewrite H0. simpl.
  destruct d; lia || reflexivity.
Qed.
End RoundHalfEven.

(** ** Properties *)

(** numpy's and Python's roundings differ.  The double nearest to
    0.005 lies just above it, so Python's [round] gives 0.01, while numpy
    multiplies to exactly 0.5 and rounds it to the even 0.  And numpy's
    multiplication by 100 overflows for the largest doubles: the answer
    becomes infinity, where Python's [round] returns the number itself. *)
Theorem np_round_vs_py :
  (np_round2 (float_lit 5 3) = S754_zero false /\ py_round2 (float_lit 5 3) = float_lit 1 2) /\
  (np_round2 (SFmax_float prec emax) = S754_infinity false /\
   py_round2 (SFmax_float prec emax) = SFmax_float prec emax).
Proof. split; split; vm_compute; reflexivity. Qed.

End PyFloat.
