(* ===== verification/Frame.v ===== *)
(** * Frame: the pandas [DataFrame] operations called by [answer_gen]

    [db_engine.query] returns a [DataFrame]; lines 155-165 use
    [result_df.empty], [result_df.iloc[0, 0]], [result_df.columns[0]] and
    [result_df.sort_values(label, ascending=False)].  A frame is its
    column labels and its rows of cells; a cell is the Python object pandas
    hands back for a SQL value: [None], a [numpy.bool_], a [numpy.int64],
    a [numpy.float64], a Python [float] (in an [object] column), a [str], or
    another object ([decimal.Decimal], [datetime], ...), which the code
    never inspects.

    [sort_values] is modelled for what the code uses it for: a key column
    holding a string.  pandas' [nargsort] puts the missing keys ([None],
    NaN) last and argsorts the others with Python's [<]; in an [object]
    array holding a [str] and a non-[str] value some comparison of the two
    happens (a comparison sort compares every pair adjacent in its output,
    and some [str] is adjacent to some non-[str]), and [str < int] raises
    [TypeError].  A label that is not unique makes pandas raise
    [ValueError], an absent one [KeyError].  pandas' default [quicksort] is
    not stable: the model sorts stably (insertion), which fixes an order
    among equal keys that pandas leaves open; [iloc[0, 0]] reads the key
    column, where equal keys are equal values, so the code's result does
    not depend on that choice. *)

From Stdlib Require Import Ascii String.
From Stdlib Require Import List Arith NArith Lia Bool ZArith SpecFloat.
From S2P Require Import Prelude PyStr.
Import ListNotations.
Open Scope py_scope.

Module Frame.

(** ** Cells and frames *)

Inductive cell :=
| CNone                         (** [None] *)
| CBool (b : bool)              (** [numpy.bool_] *)
| CInt (z : Z)                  (** [numpy.int64] *)
| CF64 (x : spec_float)         (** [numpy.float64], a subclass of [float] *)
| CPyFloat (x : spec_float)     (** a Python [float] *)
| CStr (s : pystr)              (** [str] *)
| COther (id : nat).            (** any other object that is not a missing value *)

Record frame := mkframe { columns : list pystr; rows : list (list cell) }.

(** Every row has one cell per column. *)
Definition wf (df : frame) : Prop :=
  forall r, In r (rows df) -> length r = length (columns df).

Definition is_nan (x : spec_float) : bool :=
  match x with S754_nan => true | _ => false end.

(** [pandas.isna] on a cell: [None] and float NaN.  The other missing
    values of pandas ([NaT], [pandas.NA], a [decimal.Decimal] NaN) are not
    cells of the model. *)
Definition is_na (c : cell) : bool :=
  match c with
  | CNone => true
  | CF64 x | CPyFloat x => is_nan x
  | _ => false
  end.

(** ** Python's order on [str]: code point by code point *)

Fixpoint str_ltb (a b : pystr) : bool :=
  match a, b with
  | [], [] => false
  | [], _ :: _ => true
  | _ :: _, [] => false
  | x :: a', y :: b' =>
      if N.eqb x y then str_ltb a' b' else N.ltb x y
  end.

(** ** The operations *)

(** [df.empty]: true when either axis has length 0. *)
Definition df_empty (df : frame) : bool :=
  match columns df, rows df with
  | [], _ | _, [] => true
  | _, _ => false
  end.

(** [df.iloc[0, 0]] *)
Definition iloc00 (df : frame) : pyresult cell :=
  match rows df with
  | (c :: _) :: _ => Ok c
  | _ => Raise IndexError
  end.

(** [df.columns[0]] *)
Definition column0 (df : frame) : pyresult pystr :=
  match columns df with
  | l :: _ => Ok l
  | [] => Raise IndexError
  end.

Fixpoint index_of (x : pystr) (l : list pystr) : nat :=
  match l with
  | [] => 0
  | y :: l' => if pystr_dec x y then 0 else S (index_of x l')
  end.

(** The rows keyed by their [str] in column [k], the missing keys left
    out; [None] when a present key is not a [str] (the [TypeError]). *)
Fixpoint keyed_rows (k : nat) (rs : list (list cell)) : option (list (pystr * list cell)) :=
  match rs with
  | [] => Some []
  | r :: rs' =>
      match nth k r CNone with
      | CStr s => option_map (cons (s, r)) (keyed_rows k rs')
      | c => if is_na c then keyed_rows k rs' else None
      end
  end.

(** Insertion after the rows whose key is not smaller: descending and
    stable. *)
Fixpoint insert_desc (kr : pystr * list cell) (l : list (pystr * list cell)) :
    list (pystr * list cell) :=
  match l with
  | [] => [kr]
  | kr' :: l' => if str_ltb (fst kr') (fst kr) then kr :: l else kr' :: insert_desc kr l'
  end.

Definition sort_desc (l : list (pystr * list cell)) : list (pystr * list cell) :=
  fold_left (fun acc kr => insert_desc kr acc) l [].

(** [df.sort_values(label, ascending=False)] (na_position='last'). *)
Definition sort_values_desc (label : pystr) (df : frame) : pyresult frame :=
  match count_occ (pystr_dec) (columns df) label with
  | 0 => Raise KeyError
  | 1 =>
      let k := index_of label (columns df) in
      match keyed_rows k (rows df) with
      | Some keyed =>
          Ok {| columns := columns df;
                rows := map snd (sort_desc keyed)
                        ++ filter (fun r => is_na (nth k r CNone)) (rows df) |}
      | None => Raise TypeError
      end
  | _ => Raise ValueError
  end.

(** ** The order on strings *)

Lemma str_ltb_irrefl a : str_ltb a a = false.
Proof. induction a as [|x a IH]; simpl; [reflexivity|]. now rewrite N.eqb_refl. Qed.

Lemma str_ltb_trans a b c : str_ltb a b = true -> str_ltb b c = true -> str_ltb a c = true.
Proof.
  revert b c; induction a as [|x a IH]; intros [|y b] [|z c]; cbn [str_ltb]; intros H1 H2;
    try discriminate; try reflexivity.
  destruct (N.eqb_spec x y) as [<-|Hxy].
  - destruct (N.eqb_spec x z) as [<-|Hxz]; [eauto|exact H2].
  - destruct (N.eqb_spec y z) as [<-|Hyz].
    + destruct (N.eqb_spec x y) as [->|_]; [contradiction|exact H1].
    + destruct (N.eqb_spec x z) as [<-|Hxz]; apply N.ltb_lt in H1, H2.
      * lia.
      * apply N.ltb_lt. lia.
Qed.

Lemma str_ltb_total a b : a <> b -> str_ltb a b = true \/ str_ltb b a = true.
Proof.
  revert b; induction a as [|x a IH]; intros [|y b] Hne; cbn [str_ltb];
    try (now left); try (now right); try (now contradiction Hne).
  destruct (N.eqb_spec x y) as [<-|Hxy].
  - rewrite N.eqb_refl. apply IH. congruence.
  - destruct (N.eqb_spec y x) as [<-|_]; [contradiction|].
    rewrite !N.ltb_lt. lia.
Qed.

Lemma str_ltb_asym a b : str_ltb a b = true -> str_ltb b a = false.
Proof.
  intros H. destruct (str_ltb b a) eqn:E; [|reflexivity].
  pose proof (str_ltb_trans _ _ _ H E) as Haa. now rewrite str_ltb_irrefl in Haa.
Qed.

(** ** The descending sort *)

Lemma In_insert_desc p kr l : In p (insert_desc kr l) <-> In p (kr :: l).
Proof.
  induction l as [|kr' l IH]; cbn [insert_desc]; [reflexivity|].
  destruct (str_ltb (fst kr') (fst kr)); [reflexivity|].
  change (In p (kr' :: insert_desc kr l)) with (kr' = p \/ In p (insert_desc kr l)).
  rewrite IH. simpl. tauto.
Qed.

Lemma In_sort_desc p l : In p (sort_desc l) <-> In p l.
Proof.
  unfold sort_desc. enough (H : forall acc, In p (fold_left (fun acc kr => insert_desc kr acc) l acc)
                                         <-> In p acc \/ In p l) by (rewrite H; simpl; tauto).
  induction l as [|kr l IH]; intros acc; simpl; [tauto|].
  rewrite IH, In_insert_desc. simpl. tauto.
Qed.

(** The first key is not smaller than any key. *)
Definition head_max (l : list (pystr * list cell)) : Prop :=
  match l with
  | [] => True
  | (s, _) :: _ => forall p, In p l -> str_ltb s (fst p) = false
  end.

Lemma insert_desc_head_max kr l : head_max l -> head_max (insert_desc kr l).
Proof.
  destruct l as [|[s' r'] l]; simpl; intros H.
  - destruct kr as [s r]. intros p [<-|[]]. apply str_ltb_irrefl.
  - destruct kr as [s r]. simpl. destruct (str_ltb s' s) eqn:Hlt.
    + intros p [<-|Hp]; [apply str_ltb_irrefl|].
      destruct (str_ltb s (fst p)) eqn:E; [|reflexivity].
      pose proof (H p Hp) as Hp'. now rewrite (str_ltb_trans _ _ _ Hlt E) in Hp'.
    + intros p [<-|Hp]; [apply str_ltb_irrefl|].
      apply In_insert_desc in Hp as [<-|Hp]; [exact Hlt | apply H; now right].
Qed.

Lemma sort_desc_head_max l : head_max (sort_desc l).
Proof.
  unfold sort_desc. enough (H : forall acc, head_max acc ->
    head_max (fold_left (fun acc kr => insert_desc kr acc) l acc)) by (apply H; exact I).
  induction l as [|kr l IH]; intros acc Hacc; simpl; [exact Hacc|].
  apply IH, insert_desc_head_max, Hacc.
Qed.

(** ** Keys *)

Lemma keyed_rows_sound k rs keyed s r :
  keyed_rows k rs = Some keyed -> In (s, r) keyed -> nth k r CNone = CStr s /\ In r rs.
Proof.
  revert keyed; induction rs as [|r' rs IH]; intros keyed H Hin; cbn [keyed_rows] in H.
  - inv H. destruct Hin.
  - destruct (nth k r' CNone) as [| | | | |s'|] eqn:Hk.
    all: try (destruct (is_na _); [|discriminate H];
              destruct (IH _ H Hin); split; [assumption | right; assumption]).
    destruct (keyed_rows k rs) as [l|] eqn:Hl; cbn in H; inv H.
    destruct Hin as [Heq|Hin].
    + inv Heq. split; [exact Hk | left; reflexivity].
    + destruct (IH l eq_refl Hin). split; [assumption | right; assumption].
Qed.

Lemma keyed_rows_complete k rs keyed s r :
  keyed_rows k rs = Some keyed -> In r rs -> nth k r CNone = CStr s -> In (s, r) keyed.
Proof.
  revert keyed; induction rs as [|r' rs IH]; intros keyed H Hin Hk; [destruct Hin|].
  cbn [keyed_rows] in H. destruct Hin as [<-|Hin].
  - rewrite Hk in H. destruct (keyed_rows k rs); cbn in H; inv H. now left.
  - destruct (nth k r' CNone) as [| | | | |s'|].
    all: try (destruct (is_na _); [exact (IH _ H Hin Hk) | discriminate H]).
    destruct (keyed_rows k rs) eqn:Hl; cbn in H; inv H. right. eauto.
Qed.

(** A present key that is not a [str] makes the sort raise. *)
Lemma keyed_rows_none k rs :
  keyed_rows k rs = None <->
  exists r, In r rs /\ is_na (nth k r CNone) = false /\
            forall s, nth k r CNone <> CStr s.
Proof.
  induction rs as [|r rs IH]; cbn [keyed_rows].
  - split; [discriminate|]. intros (r & [] & _).
  - split.
    + intros H. destruct (nth k r CNone) as [| | | | |s|] eqn:Hk.
      1-5,7: destruct (is_na _) eqn:Hna;
        [destruct (proj1 IH H) as (r' & ? & ? & ?); exists r'; split; [right|split]; assumption
        |exists r; rewrite Hk; split; [left; reflexivity | split; [exact Hna | discriminate]]].
      destruct (keyed_rows k rs) eqn:Hl; cbn in H; [discriminate|].
      destruct (proj1 IH eq_refl) as (r' & ? & ? & ?). exists r'. split; [right|split]; assumption.
    + intros (r' & [<-|Hin] & Hna & Hns).
      * destruct (nth k r CNone) as [| | | | |s|]; [| | | | |exfalso; exact (Hns s eq_refl)|];
          cbn in Hna |- *; first [discriminate Hna | rewrite Hna; reflexivity | reflexivity].
      * assert (Hn : keyed_rows k rs = None) by (apply IH; eauto).
        rewrite Hn. destruct (nth k r CNone); try reflexivity;
          match goal with |- (if ?b then _ else _) = _ => destruct b; reflexivity end.
Qed.

End Frame.
