(* ===== verification/SortValues.v ===== *)
(** * SortValues: [sort_values] against pandas' contract

    pandas' [sort_values(label, ascending=False)] argsorts the present keys
    with the array's [kind] ([quicksort] by default, not stable), so what
    it promises is only that the present rows come out as a descending
    permutation of themselves, the missing keys last.  This file states
    that contract ([argsort_desc_spec], [sort_values_spec]), proves that
    the model's insertion sort [Frame.sort_desc] meets it, and that every
    output meeting it has the same first key: the first cell the code
    reads does not depend on the sort algorithm.  It also proves that the
    sort only reorders rows (a permutation of the frame's rows, the labels
    unchanged), so it keeps frames well formed, and gives the [Proper]
    instances for frames equal up to the order of their rows. *)

From Stdlib Require Import Ascii String.
From Stdlib Require Import List Arith Lia Bool ZArith.
From Stdlib Require Import Permutation Sorted Morphisms Setoid RelationClasses.
From S2P Require Import Prelude PyStr Frame.
Import ListNotations.
Open Scope py_scope.

Module SortValues.
Import Frame.

Abbreviation keyed_row := (pystr * list cell)%type.

(** [a] may come before [b] in descending order: [a]'s key is not
    smaller than [b]'s. *)
Definition desc_key (a b : keyed_row) : Prop := str_ltb (fst a) (fst b) = false.

(** What an argsort in descending order promises, whatever its algorithm. *)
Definition argsort_desc_spec (keyed out : list keyed_row) : Prop :=
  Permutation keyed out /\ Sorted desc_key out.

(** The contract of [df.sort_values(label, ascending=False)]: the error
    cases of [Frame.sort_values_desc], and otherwise any descending
    argsort of the present keys followed by the rows with missing keys. *)
Definition sort_values_spec (label : pystr) (df : frame) (res : pyresult frame) : Prop :=
  match count_occ (pystr_dec) (columns df) label with
  | 0 => res = Raise KeyError
  | 1 =>
      let k := index_of label (columns df) in
      match keyed_rows k (rows df) with
      | Some keyed =>
          exists out, argsort_desc_spec keyed out /\
            res = Ok {| columns := columns df;
                        rows := map snd out ++ filter (fun r => is_na (nth k r CNone)) (rows df) |}
      | None => res = Raise TypeError
      end
  | _ => res = Raise ValueError
  end.

(** Frames equal up to the order of their rows. *)
Definition frame_perm (d1 d2 : frame) : Prop :=
  columns d1 = columns d2 /\ Permutation (rows d1) (rows d2).

(** Results equal up to the order of the rows: the same exception, or
    frames equal up to row order. *)
Definition res_perm (r1 r2 : pyresult frame) : Prop :=
  match r1, r2 with
  | Ok d1, Ok d2 => frame_perm d1 d2
  | Raise e1, Raise e2 => e1 = e2
  | _, _ => False
  end.

(** ** The order on keys *)

Lemma str_ltb_false_antisym a b : str_ltb a b = false -> str_ltb b a = false -> a = b.
Proof.
  intros H1 H2. destruct (pystr_dec a b) as [|Hne]; [assumption|].
  destruct (str_ltb_total a b Hne); congruence.
Qed.

#[export] Instance desc_key_trans : Transitive desc_key.
Proof.
  intros [a ra] [b rb] [c rc]; unfold desc_key; cbn [fst]; intros Hab Hbc.
  destruct (str_ltb a c) eqn:Hac; [|reflexivity].
  destruct (pystr_dec a b) as [<-|Hne1]; [congruence|].
  destruct (pystr_dec b c) as [<-|Hne2]; [congruence|].
  destruct (str_ltb_total a b Hne1) as [|Hba]; [congruence|].
  destruct (str_ltb_total b c Hne2) as [|Hcb]; [congruence|].
  pose proof (str_ltb_trans _ _ _ Hcb Hba) as Hca.
  now rewrite (str_ltb_asym _ _ Hac) in Hca.
Qed.

(** ** The insertion sort meets the contract *)

Lemma insert_desc_perm kr l : Permutation (insert_desc kr l) (kr :: l).
Proof.
  induction l as [|kr' l IH]; cbn [insert_desc]; [reflexivity|].
  destruct (str_ltb (fst kr') (fst kr)); [reflexivity|].
  rewrite IH. apply perm_swap.
Qed.

Lemma sort_desc_perm l : Permutation (sort_desc l) l.
Proof.
  unfold sort_desc.
  enough (H : forall acc, Permutation (fold_left (fun acc kr => insert_desc kr acc) l acc) (l ++ acc))
    by (rewrite H, app_nil_r; reflexivity).
  induction l as [|kr l IH]; intros acc; cbn [fold_left app]; [reflexivity|].
  rewrite IH, insert_desc_perm. symmetry. apply Permutation_middle.
Qed.

Lemma insert_desc_hdrel a kr l :
  HdRel desc_key a l -> desc_key a kr -> HdRel desc_key a (insert_desc kr l).
Proof.
  intros Hl Ha. destruct l as [|kr' l]; cbn [insert_desc]; [now constructor|].
  destruct (str_ltb (fst kr') (fst kr)); constructor; [exact Ha|]. now inv Hl.
Qed.

Lemma insert_desc_sorted kr l : Sorted desc_key l -> Sorted desc_key (insert_desc kr l).
Proof.
  induction l as [|kr' l IH]; intros Hs; cbn [insert_desc]; [now repeat constructor|].
  destruct (str_ltb (fst kr') (fst kr)) eqn:Hlt.
  - constructor; [exact Hs|]. constructor. exact (str_ltb_asym _ _ Hlt).
  - inv Hs. constructor; [now apply IH|]. now apply insert_desc_hdrel.
Qed.

Lemma sort_desc_sorted l : Sorted desc_key (sort_desc l).
Proof.
  unfold sort_desc.
  enough (H : forall acc, Sorted desc_key acc ->
            Sorted desc_key (fold_left (fun acc kr => insert_desc kr acc) l acc))
    by (apply H; constructor).
  induction l as [|kr l IH]; intros acc Hacc; cbn [fold_left]; [exact Hacc|].
  now apply IH, insert_desc_sorted.
Qed.

Lemma sort_desc_spec l : argsort_desc_spec l (sort_desc l).
Proof. split; [symmetry; apply sort_desc_perm | apply sort_desc_sorted]. Qed.

(** ** Every sorted output starts with the same key *)

Lemma sorted_head_le a out x :
  Sorted desc_key (a :: out) -> In x (a :: out) -> desc_key a x.
Proof.
  intros Hs Hx. apply Sorted_StronglySorted in Hs; [|exact desc_key_trans].
  destruct Hx as [<-|Hx]; [apply str_ltb_irrefl|].
  inv Hs. eapply Forall_forall; eassumption.
Qed.

Lemma argsort_head_key keyed o1 o2 :
  argsort_desc_spec keyed o1 -> argsort_desc_spec keyed o2 ->
  option_map fst (hd_error o1) = option_map fst (hd_error o2).
Proof.
  intros [P1 S1] [P2 S2]. assert (P : Permutation o1 o2) by (rewrite <- P1; exact P2).
  destruct o1 as [|a o1], o2 as [|b o2].
  - reflexivity.
  - apply Permutation_nil in P. discriminate.
  - symmetry in P. apply Permutation_nil in P. discriminate.
  - cbn. f_equal. apply str_ltb_false_antisym.
    + apply (sorted_head_le a o1 b S1). apply (Permutation_in _ (Permutation_sym P)). now left.
    + apply (sorted_head_le b o2 a S2). apply (Permutation_in _ P). now left.
Qed.

(** ** The sort only reorders rows *)

Lemma keyed_rows_perm k rs keyed :
  keyed_rows k rs = Some keyed ->
  Permutation (map snd keyed ++ filter (fun r => is_na (nth k r CNone)) rs) rs.
Proof.
  revert keyed; induction rs as [|r rs IH]; intros keyed H; cbn [keyed_rows] in H.
  - inv H. reflexivity.
  - cbn [filter]. destruct (nth k r CNone) as [| | | | |s|] eqn:Hk.
    6: { destruct (keyed_rows k rs) as [l|] eqn:Hl; cbn in H; inv H. cbn [is_na map app].
         constructor. exact (IH l eq_refl). }
    all: destruct (is_na _) eqn:Hna; [|discriminate H].
    all: rewrite <- Permutation_middle; constructor; exact (IH keyed H).
Qed.

Lemma sort_values_spec_rows label df d :
  sort_values_spec label df (Ok d) ->
  columns d = columns df /\ Permutation (rows d) (rows df).
Proof.
  unfold sort_values_spec.
  destruct (count_occ _ _ _) as [|[|n]]; try discriminate.
  destruct (keyed_rows _ _) as [keyed|] eqn:Hk; [|discriminate].
  intros (out & [P _] & E). inv E. cbn [columns rows]. split; [reflexivity|].
  rewrite <- P. exact (keyed_rows_perm _ _ _ Hk).
Qed.

Lemma wf_perm df d : columns d = columns df -> Permutation (rows d) (rows df) -> wf df -> wf d.
Proof.
  intros Hc P Hwf r Hr. rewrite Hc. apply Hwf. exact (Permutation_in _ P Hr).
Qed.

(** The code meets the contract. *)
Lemma sort_values_desc_meets_spec label df : sort_values_spec label df (sort_values_desc label df).
Proof.
  unfold sort_values_spec, sort_values_desc.
  destruct (count_occ _ _ _) as [|[|n]]; try reflexivity.
  destruct (keyed_rows _ _) as [keyed|]; [|reflexivity].
  exists (sort_desc keyed). split; [apply sort_desc_spec | reflexivity].
Qed.

(** ** Frames up to row order *)

#[export] Instance frame_perm_equiv : Equivalence frame_perm.
Proof.
  split.
  - intros d. split; reflexivity.
  - intros d1 d2 [Hc P]. split; symmetry; assumption.
  - intros d1 d2 d3 [Hc1 P1] [Hc2 P2]. split; etransitivity; eassumption.
Qed.

#[export] Instance df_empty_perm : Proper (frame_perm ==> eq) df_empty.
Proof.
  intros d1 d2 [Hc P]. unfold df_empty. rewrite Hc.
  destruct (columns d2); [reflexivity|].
  destruct (rows d1) eqn:E1, (rows d2) eqn:E2; try reflexivity.
  - apply Permutation_nil in P. discriminate.
  - symmetry in P. apply Permutation_nil in P. discriminate.
Qed.

#[export] Instance column0_perm : Proper (frame_perm ==> eq) column0.
Proof. intros d1 d2 [Hc _]. unfold column0. now rewrite Hc. Qed.

Lemma keyed_rows_none_perm k rs rs' :
  Permutation rs rs' -> keyed_rows k rs = None -> keyed_rows k rs' = None.
Proof.
  intros P H. apply keyed_rows_none in H as (r & Hr & Hna & Hns).
  apply keyed_rows_none. exists r. split; [exact (Permutation_in _ P Hr) | split; assumption].
Qed.

Lemma sort_values_desc_raise_perm l d1 d2 e :
  frame_perm d1 d2 -> sort_values_desc l d1 = Raise e -> sort_values_desc l d2 = Raise e.
Proof.
  intros [Hc P]. unfold sort_values_desc. rewrite <- Hc.
  destruct (count_occ _ _ _) as [|[|n]]; try exact (fun H => H).
  destruct (keyed_rows _ (rows d1)) as [k1|] eqn:K1; [discriminate|].
  now rewrite (keyed_rows_none_perm _ _ _ P K1).
Qed.

#[export] Instance sort_values_desc_perm : Proper (eq ==> frame_perm ==> res_perm) sort_values_desc.
Proof.
  intros l ? <- d1 d2 Hd.
  pose proof (sort_values_desc_meets_spec l d1) as S1.
  pose proof (sort_values_desc_meets_spec l d2) as S2.
  destruct (sort_values_desc l d1) as [e1|x1] eqn:E1, (sort_values_desc l d2) as [e2|x2] eqn:E2;
    cbn [res_perm].
  - apply sort_values_spec_rows in S1 as [C1 P1], S2 as [C2 P2]. destruct Hd as [Hc P].
    split; [congruence|]. rewrite P1, P2. exact P.
  - rewrite (sort_values_desc_raise_perm _ _ _ _ (symmetry Hd) E2) in E1. discriminate.
  - rewrite (sort_values_desc_raise_perm _ _ _ _ Hd E1) in E2. discriminate.
  - rewrite (sort_values_desc_raise_perm _ _ _ _ Hd E1) in E2. congruence.
Qed.

(** ** Properties *)

(** (C19) The model of [sort_values(label, ascending=False)] meets pandas'
    contract: the same exceptions, and otherwise a descending permutation
    of the rows with a present key followed by the rows with a missing
    one. *)
Theorem sort_values_refines label df : sort_values_spec label df (sort_values_desc label df).
Proof. apply sort_values_desc_meets_spec. Qed.

(** (C22) Any sort pandas may use (stable or not) puts first a row with
    the same key as the model's stable insertion sort. *)
Theorem sort_first_key_any_algorithm keyed out :
  argsort_desc_spec keyed out ->
  option_map fst (hd_error out) = option_map fst (hd_error (sort_desc keyed)).
Proof. intros H. exact (argsort_head_key keyed out _ H (sort_desc_spec keyed)). Qed.

(** (C21) The sort only reorders rows: the labels are kept, the rows are
    a permutation of the frame's rows, so a well-formed frame stays well
    formed. *)
Theorem sort_values_rows_perm label df d :
  sort_values_desc label df = Ok d -> frame_perm d df /\ (wf df -> wf d).
Proof.
  intros H. pose proof (sort_values_desc_meets_spec label df) as S. rewrite H in S.
  destruct (sort_values_spec_rows _ _ _ S) as [Hc P].
  split; [split; assumption | exact (wf_perm _ _ Hc P)].
Qed.

(** ** Examples *)

Definition row_b1 : keyed_row := (<<"b">>, [CStr <<"b">>; CInt 1]).
Definition row_a2 : keyed_row := (<<"a">>, [CStr <<"a">>; CInt 2]).
Definition row_b3 : keyed_row := (<<"b">>, [CStr <<"b">>; CInt 3]).

Lemma sort_first_key_any_algorithm_witness :
  argsort_desc_spec [row_b1; row_a2; row_b3] [row_b3; row_b1; row_a2] /\
  option_map fst (hd_error [row_b3; row_b1; row_a2]) =
    option_map fst (hd_error (sort_desc [row_b1; row_a2; row_b3])).
Proof.
  assert (H : argsort_desc_spec [row_b1; row_a2; row_b3] [row_b3; row_b1; row_a2]).
  { split.
    - exact (Permutation_sym (Permutation_cons_append [row_b1; row_a2] row_b3)).
    - repeat (constructor; try reflexivity). }
  split; [exact H | exact (sort_first_key_any_algorithm _ _ H)].
Defined.

Definition df_towns : frame :=
  {| columns := [<<"town">>; <<"pop">>];
     rows := [[CStr <<"alpha">>; CInt 3]; [CNone; CInt 5]; [CStr <<"zeta">>; CInt 1]] |}.

Definition df_towns_sorted : frame :=
  {| columns := [<<"town">>; <<"pop">>];
     rows := [[CStr <<"zeta">>; CInt 1]; [CStr <<"alpha">>; CInt 3]; [CNone; CInt 5]] |}.

Lemma sort_values_rows_perm_witness :
  sort_values_desc <<"town">> df_towns = Ok df_towns_sorted /\
  (frame_perm df_towns_sorted df_towns /\ (wf df_towns -> wf df_towns_sorted)).
Proof.
  assert (H : sort_values_desc <<"town">> df_towns = Ok df_towns_sorted) by (vm_compute; reflexivity).
  split; [exact H | exact (sort_values_rows_perm _ _ _ H)].
Defined.

End SortValues.
