(* ===== verification/Normalize.v ===== *)
(** * Normalize: the query executor and the answer normalizer (rag.py, lines 152-169)

    [postprocess] is the body of the [try] after the query (lines
    155-167): [None] for an empty frame, the first cell rounded when it is
    a float, the first cell of the frame re-sorted by its first column in
    descending order when it is a [str], the first cell otherwise.
    [execute] is the whole [try]/[except Exception: return None] around
    [db_engine.query(sql_query)] (lines 152-153, 168-169), for any query
    service.  Answers are Python values ([cell]), [None] being [CNone]. *)

From Stdlib Require Import Ascii String.
From Stdlib Require Import List Arith Lia Bool ZArith SpecFloat.
From Stdlib Require Import Permutation Morphisms Setoid.
From S2P Require Import Prelude PyStr PyFloat Frame SortValues.
Import ListNotations.
Open Scope py_scope.

Module Normalize.
Import PyFloat Frame SortValues.

(** ** The code *)

(** Lines 155-167. *)
Definition postprocess (result_df : frame) : pyresult cell :=
  if df_empty result_df then Ok CNone
  else
    answer <- iloc00 result_df ;;
    match answer with
    | CF64 x => Ok (CF64 (np_round2 x))
    | CPyFloat x => Ok (CPyFloat (py_round2 x))
    | CStr _ =>
        label <- column0 result_df ;;
        sorted_df <- sort_values_desc label result_df ;;
        iloc00 sorted_df
    | a => Ok a
    end.

(** Lines 152-153 and 168-169: any exception from the query or the
    post-processing becomes [None]. *)
Definition execute (query : pystr -> pyresult frame) (sql_query : pystr) : cell :=
  try_except (result_df <- query sql_query ;; postprocess result_df) CNone.

(** ** The abstract contract of the string branch *)

(** The cells of the first column. *)
Definition col0 (df : frame) : list cell := map (fun r => nth 0 r CNone) (rows df).

(** The strings of the first column. *)
Definition col0_strs (df : frame) : list pystr :=
  flat_map (fun c => match c with CStr s => [s] | _ => [] end) (col0 df).

(** [m] is a greatest string of [l] in Python's order. *)
Definition is_max (m : pystr) (l : list pystr) : Prop :=
  In m l /\ forall t, In t l -> str_ltb m t = false.

(** Every present cell of the first column is a string. *)
Definition col0_all_str (df : frame) : Prop :=
  forall c, In c (col0 df) -> is_na c = false -> exists s, c = CStr s.

(** The label of the first column occurs once among the labels. *)
Definition label0_unique (df : frame) : Prop :=
  match columns df with
  | l :: _ => count_occ (pystr_dec) (columns df) l = 1
  | [] => False
  end.

(** ** Lemmas *)

Lemma index_of_head l ls : index_of l (l :: ls) = 0.
Proof. simpl. destruct (pystr_dec l l); [reflexivity | contradiction]. Qed.

Lemma In_col0_strs df s : In s (col0_strs df) <-> exists r, In r (rows df) /\ nth 0 r CNone = CStr s.
Proof.
  unfold col0_strs, col0. rewrite in_flat_map. split.
  - intros (c & Hc & Hs). apply in_map_iff in Hc as (r & <- & Hr).
    destruct (nth 0 r CNone) eqn:E; try destruct Hs as [<-|[]]; try contradiction. eauto.
  - intros (r & Hr & Hk). exists (CStr s). split; [|now left].
    apply in_map_iff. eauto.
Qed.

Lemma keyed_rows_col0 df :
  col0_all_str df -> keyed_rows 0 (rows df) <> None.
Proof.
  intros Hall Hnone. apply keyed_rows_none in Hnone as (r & Hr & Hna & Hns).
  destruct (Hall (nth 0 r CNone)) as [s Hs];
    [apply (in_map (fun r => nth 0 r CNone)); exact Hr | exact Hna |].
  exact (Hns s Hs).
Qed.

(** After the sort, the first cell is a greatest string of the column. *)
Lemma sorted_first_cell df label keyed :
  keyed_rows 0 (rows df) = Some keyed -> keyed <> [] ->
  exists m, iloc00 {| columns := label;
                      rows := map snd (sort_desc keyed)
                              ++ filter (fun r => is_na (nth 0 r CNone)) (rows df) |} = Ok (CStr m)
            /\ is_max m (col0_strs df).
Proof.
  intros Hk Hne.
  destruct (sort_desc keyed) as [|[m r] sorted] eqn:Hs.
  - destruct keyed as [|kr keyed]; [contradiction|].
    assert (Hin : In kr (sort_desc (kr :: keyed))) by (apply In_sort_desc; now left).
    rewrite Hs in Hin. destruct Hin.
  - pose proof (sort_desc_head_max keyed) as Hmax. rewrite Hs in Hmax.
    assert (Hmr : In (m, r) keyed) by (apply In_sort_desc; rewrite Hs; now left).
    destruct (keyed_rows_sound _ _ _ _ _ Hk Hmr) as [Hr Hrin].
    exists m. split.
    + unfold iloc00. simpl. destruct r as [|c r]; [discriminate Hr|]. simpl in Hr. now subst.
    + split.
      * apply In_col0_strs. eauto.
      * intros t Ht. apply In_col0_strs in Ht as (r' & Hr' & Ht).
        apply (Hmax (t, r')). rewrite <- Hs. apply In_sort_desc.
        exact (keyed_rows_complete _ _ _ _ _ Hk Hr' Ht).
Qed.

Lemma iloc00_nonempty df c : iloc00 df = Ok c -> exists r rs, rows df = (c :: r) :: rs.
Proof.
  unfold iloc00. destruct (rows df) as [|[|c' r] rs]; try discriminate.
  intros H; inv H. eauto.
Qed.

Lemma not_empty df c l ls : iloc00 df = Ok c -> columns df = l :: ls -> df_empty df = false.
Proof.
  intros H Hc. destruct (iloc00_nonempty _ _ H) as (r & rs & Hr).
  unfold df_empty. now rewrite Hc, Hr.
Qed.

(** The string branch: the sort succeeds and its first cell is a greatest
    string of the first column. *)
Lemma postprocess_str df s :
  iloc00 df = Ok (CStr s) -> label0_unique df -> col0_all_str df ->
  exists m, postprocess df = Ok (CStr m) /\ is_max m (col0_strs df).
Proof.
  intros H0 Hu Hall. unfold label0_unique in Hu.
  destruct (columns df) as [|l ls] eqn:Hc; [contradiction|].
  unfold postprocess. rewrite (not_empty _ _ _ _ H0 Hc), H0.
  unfold column0, sort_values_desc. rewrite Hc, Hu, index_of_head. cbn [columns].
  destruct (keyed_rows 0 (rows df)) as [keyed|] eqn:Hk;
    [|exfalso; exact (keyed_rows_col0 _ Hall Hk)].
  apply sorted_first_cell; [exact Hk|].
  destruct (iloc00_nonempty _ _ H0) as (r & rs & Hr).
  assert (Hin : In (s, CStr s :: r) keyed) by
    (apply (keyed_rows_complete 0 (rows df)); [exact Hk | rewrite Hr; now left | reflexivity]).
  intros ->. destruct Hin.
Qed.

(** A failing post-processing is caught like a failing query. *)
Lemma execute_ok query sql df :
  query sql = Ok df -> execute query sql = try_except (postprocess df) CNone.
Proof. intros H. unfold execute. now rewrite H. Qed.

(** The sort of the string branch, whenever it succeeds, puts first a
    greatest string of the first column. *)
Lemma sort_values_first_max df l s d :
  column0 df = Ok l -> iloc00 df = Ok (CStr s) -> sort_values_desc l df = Ok d ->
  exists m, iloc00 d = Ok (CStr m) /\ is_max m (col0_strs df).
Proof.
  unfold column0. destruct (columns df) as [|l' ls] eqn:Hc; [discriminate|]. intros E; inv E.
  intros H0 Hs. unfold sort_values_desc in Hs. rewrite Hc, index_of_head in Hs.
  destruct (count_occ _ _ _) as [|[|n]]; try discriminate.
  destruct (keyed_rows 0 (rows df)) as [keyed|] eqn:Hk; [|discriminate]. inv Hs.
  apply sorted_first_cell; [exact Hk|].
  destruct (iloc00_nonempty _ _ H0) as (r & rs & Hr).
  assert (Hin : In (s, CStr s :: r) keyed) by
    (apply (keyed_rows_complete 0 (rows df)); [exact Hk | rewrite Hr; now left | reflexivity]).
  intros ->. destruct Hin.
Qed.

Lemma is_max_unique m1 m2 l1 l2 :
  is_max m1 l1 -> is_max m2 l2 -> (forall x, In x l1 <-> In x l2) -> m1 = m2.
Proof.
  intros [I1 M1] [I2 M2] E. apply str_ltb_false_antisym.
  - apply M1, E, I2.
  - apply M2, E, I1.
Qed.

Lemma col0_strs_perm d1 d2 x :
  frame_perm d1 d2 -> In x (col0_strs d1) <-> In x (col0_strs d2).
Proof.
  intros [_ P]. rewrite !In_col0_strs. split; intros (r & Hr & Hx); exists r;
    split; try exact Hx; [exact (Permutation_in _ P Hr) | exact (Permutation_in _ (Permutation_sym P) Hr)].
Qed.

Lemma iloc00_in_col0 d c : iloc00 d = Ok c -> In c (col0 d).
Proof.
  intros H. destruct (iloc00_nonempty _ _ H) as (r & rs & Hr).
  unfold col0. rewrite Hr. now left.
Qed.

(** ** Properties *)

(** (C4) The string tie-break: when the first cell is a string, the first
    column's label is unique and its present cells are all strings, the
    answer is a greatest string of the first column in Python's order,
    whatever order the query returned. *)
Theorem execute_str_max query sql df s :
  query sql = Ok df -> iloc00 df = Ok (CStr s) -> label0_unique df -> col0_all_str df ->
  exists m, execute query sql = CStr m /\ is_max m (col0_strs df).
Proof.
  intros Hq H0 Hu Hall. rewrite (execute_ok _ _ _ Hq).
  destruct (postprocess_str _ _ H0 Hu Hall) as (m & -> & Hm).
  exists m. split; [reflexivity | exact Hm].
Qed.

(** (C11) Whatever the query raises, the answer is [None]. *)
Theorem execute_query_raises query sql e :
  query sql = Raise e -> execute query sql = CNone.
Proof. intros H. unfold execute. now rewrite H. Qed.

(** (C12) A frame with no rows (or no columns) gives [None]. *)
Theorem execute_empty query sql df :
  query sql = Ok df -> df_empty df = true -> execute query sql = CNone.
Proof. intros Hq He. rewrite (execute_ok _ _ _ Hq). unfold postprocess. now rewrite He. Qed.

(** (C16) Integers, booleans, [None] and other objects are returned
    unchanged. *)
Theorem execute_passthrough query sql df c :
  query sql = Ok df -> df_empty df = false -> iloc00 df = Ok c ->
  match c with CF64 _ | CPyFloat _ | CStr _ => False | _ => True end ->
  execute query sql = c.
Proof.
  intros Hq He H0 Hc. rewrite (execute_ok _ _ _ Hq). unfold postprocess. rewrite He, H0.
  destruct c; try contradiction; reflexivity.
Qed.

(** (C27) A string first cell over a first column that also holds a
    present non-string value gives [None]: the sort raises [TypeError],
    which the [except] turns into [None]. *)
Theorem execute_mixed_column query sql df s c :
  query sql = Ok df -> iloc00 df = Ok (CStr s) -> label0_unique df ->
  In c (col0 df) -> is_na c = false -> (forall t, c <> CStr t) ->
  execute query sql = CNone.
Proof.
  intros Hq H0 Hu Hc Hna Hns. rewrite (execute_ok _ _ _ Hq). unfold label0_unique in Hu.
  destruct (columns df) as [|l ls] eqn:Hcol; [contradiction|].
  unfold postprocess. rewrite (not_empty _ _ _ _ H0 Hcol), H0.
  unfold column0, sort_values_desc. rewrite Hcol, Hu, index_of_head.
  assert (Hk : keyed_rows 0 (rows df) = None).
  { apply keyed_rows_none. unfold col0 in Hc. apply in_map_iff in Hc as (r & <- & Hr). eauto. }
  now rewrite Hk.
Qed.

(** (C28) A string first cell under a column label that occurs twice
    (two columns of the same name, as a join can produce) gives [None]:
    [sort_values] raises [ValueError]. *)
Theorem execute_duplicate_label query sql df s l ls :
  query sql = Ok df -> iloc00 df = Ok (CStr s) -> columns df = l :: ls -> In l ls ->
  execute query sql = CNone.
Proof.
  intros Hq H0 Hcol Hdup. rewrite (execute_ok _ _ _ Hq).
  unfold postprocess. rewrite (not_empty _ _ _ _ H0 Hcol), H0.
  unfold column0, sort_values_desc. rewrite Hcol. cbn [count_occ].
  destruct (pystr_dec l l) as [_|]; [|contradiction].
  apply (count_occ_In (pystr_dec)) in Hdup.
  destruct (count_occ (pystr_dec) ls l) as [|n]; [lia|]. reflexivity.
Qed.

(** (C20) The string tie-break does not depend on the order in which
    the query returned its rows: two results with the same rows in any
    order, both with a string first cell, give the same answer. *)
Theorem execute_row_order q1 q2 sql df1 df2 s1 s2 :
  q1 sql = Ok df1 -> q2 sql = Ok df2 -> frame_perm df1 df2 ->
  iloc00 df1 = Ok (CStr s1) -> iloc00 df2 = Ok (CStr s2) ->
  execute q1 sql = execute q2 sql.
Proof.
  intros Hq1 Hq2 Hd H1 H2. rewrite (execute_ok _ _ _ Hq1), (execute_ok _ _ _ Hq2).
  unfold postprocess. rewrite (df_empty_perm _ _ Hd), H1, H2.
  destruct (df_empty df2); [reflexivity|]. cbn beta iota.
  rewrite (column0_perm _ _ Hd). destruct (column0 df2) as [l|e] eqn:Hl; [|reflexivity].
  pose proof (sort_values_desc_perm l l eq_refl _ _ Hd) as Hr.
  destruct (sort_values_desc l df1) as [e1|x1] eqn:E1, (sort_values_desc l df2) as [e2|x2] eqn:E2;
    cbn [res_perm] in Hr; try contradiction; [|reflexivity].
  rewrite <- (column0_perm _ _ Hd) in Hl.
  destruct (sort_values_first_max _ _ _ _ Hl H1 E1) as (m1 & -> & M1).
  rewrite (column0_perm _ _ Hd) in Hl.
  destruct (sort_values_first_max _ _ _ _ Hl H2 E2) as (m2 & -> & M2).
  cbn. f_equal. f_equal. exact (is_max_unique _ _ _ _ M1 M2 (fun x => col0_strs_perm _ _ x Hd)).
Qed.

(** The answer [answer_gen] gives for a non-empty frame, by the type of its
    first cell: [None] when there is no first cell, the cell rounded with
    numpy's or Python's algorithm when it is a [numpy.float64] or a
    Python [float], [None] or a greatest string of the first column when
    it is a [str], the cell itself otherwise. *)
Definition answer_shape (df : frame) (a : cell) : Prop :=
  match iloc00 df with
  | Raise _ => a = CNone
  | Ok c =>
      match c with
      | CF64 x => a = CF64 (np_round2 x)
      | CPyFloat x => a = CPyFloat (py_round2 x)
      | CStr _ => a = CNone \/ exists m, a = CStr m /\ is_max m (col0_strs df)
      | _ => a = c
      end
  end.

(** (C8) The answer to a non-empty result has the shape its first cell's
    type decides: a rounded float for a float, [None] or a greatest string
    of the first column for a string, the cell itself for any other
    value, [None] when the first row is empty. *)
Theorem execute_answer_type query sql df :
  query sql = Ok df -> df_empty df = false -> answer_shape df (execute query sql).
Proof.
  intros Hq He. rewrite (execute_ok _ _ _ Hq). unfold answer_shape, postprocess. rewrite He.
  destruct (iloc00 df) as [c|e] eqn:H0; [|reflexivity].
  destruct c as [| | |x|x|s|]; try reflexivity.
  cbn beta iota. destruct (column0 df) as [l|e] eqn:Hl; [|now left]. cbn beta iota.
  destruct (sort_values_desc l df) as [d|e] eqn:Hs; [|now left]. cbn beta iota.
  destruct (sort_values_first_max _ _ _ _ Hl H0 Hs) as (m & -> & Hm).
  right. exists m. split; [reflexivity | exact Hm].
Qed.

(** ** Examples and witnesses *)

(** The specification's example: [("alpha",), ("zeta",), ("mike",)]. *)
Definition df_names : frame :=
  {| columns := [<<"trading_node">>];
     rows := [[CStr <<"alpha">>]; [CStr <<"zeta">>]; [CStr <<"mike">>]] |}.

(** The specification's tie-break example: the rows come back as
    alpha, zeta, mike and the answer is zeta. *)
Theorem execute_tie_break_example sql : execute (fun _ => Ok df_names) sql = CStr <<"zeta">>.
Proof. vm_compute. reflexivity. Qed.

Lemma df_names_all_str : col0_all_str df_names.
Proof.
  intros c Hc _. simpl in Hc.
  destruct Hc as [<-|[<-|[<-|[]]]]; eexists; reflexivity.
Qed.

Lemma execute_str_max_witness :
  (fun _ : pystr => Ok df_names) [] = Ok df_names /\ iloc00 df_names = Ok (CStr <<"alpha">>) /\
  label0_unique df_names /\ col0_all_str df_names /\
  exists m, execute (fun _ => Ok df_names) [] = CStr m /\ is_max m (col0_strs df_names).
Proof.
  split; [reflexivity|]. split; [reflexivity|]. split; [reflexivity|].
  split; [exact df_names_all_str|].
  apply (execute_str_max _ [] df_names <<"alpha">>);
    [reflexivity | reflexivity | reflexivity | exact df_names_all_str].
Defined.

Lemma execute_query_raises_witness :
  (fun _ : pystr => @Raise frame (ServiceError "Unknown column")) <<"SELECT x FROM t">>
    = Raise (ServiceError "Unknown column") /\
  execute (fun _ => Raise (ServiceError "Unknown column")) <<"SELECT x FROM t">> = CNone.
Proof. split; [reflexivity|]. apply (execute_query_raises _ _ (ServiceError "Unknown column")). reflexivity. Defined.

Definition df_no_rows : frame := {| columns := [<<"upstream">>]; rows := [] |}.

Lemma execute_empty_witness :
  (fun _ : pystr => Ok df_no_rows) [] = Ok df_no_rows /\ df_empty df_no_rows = true /\
  execute (fun _ => Ok df_no_rows) [] = CNone.
Proof. split; [reflexivity|]. split; [reflexivity|]. apply (execute_empty _ _ df_no_rows); reflexivity. Defined.

Definition df_count : frame := {| columns := [<<"COUNT(trading_node)">>]; rows := [[CInt 7]] |}.

Lemma execute_passthrough_witness :
  (fun _ : pystr => Ok df_count) [] = Ok df_count /\ df_empty df_count = false /\
  iloc00 df_count = Ok (CInt 7) /\ execute (fun _ => Ok df_count) [] = CInt 7.
Proof.
  split; [reflexivity|]. split; [reflexivity|]. split; [reflexivity|].
  apply (execute_passthrough _ [] df_count (CInt 7)); [reflexivity | reflexivity | reflexivity | exact I].
Defined.

Definition df_mixed : frame :=
  {| columns := [<<"name">>]; rows := [[CStr <<"alpha">>]; [CInt 3]] |}.

Lemma execute_mixed_column_witness :
  (fun _ : pystr => Ok df_mixed) [] = Ok df_mixed /\ iloc00 df_mixed = Ok (CStr <<"alpha">>) /\
  label0_unique df_mixed /\ In (CInt 3) (col0 df_mixed) /\ is_na (CInt 3) = false /\
  (forall t, CInt 3 <> CStr t) /\ execute (fun _ => Ok df_mixed) [] = CNone.
Proof.
  assert (Hin : In (CInt 3) (col0 df_mixed)) by (right; left; reflexivity).
  assert (Hns : forall t, CInt 3 <> CStr t) by discriminate.
  do 3 (split; [reflexivity|]). split; [exact Hin|]. split; [reflexivity|]. split; [exact Hns|].
  apply (execute_mixed_column _ [] df_mixed <<"alpha">> (CInt 3));
    [reflexivity | reflexivity | reflexivity | exact Hin | reflexivity | exact Hns].
Defined.

(** [SELECT node_country.country_name, country.country_name ...]: two
    columns labelled [country_name]. *)
Definition df_dup : frame :=
  {| columns := [<<"country_name">>; <<"country_name">>];
     rows := [[CStr <<"Castile">>; CStr <<"Castile">>]] |}.

Lemma execute_duplicate_label_witness :
  (fun _ : pystr => Ok df_dup) [] = Ok df_dup /\ iloc00 df_dup = Ok (CStr <<"Castile">>) /\
  columns df_dup = [<<"country_name">>; <<"country_name">>] /\ In <<"country_name">> [<<"country_name">>] /\
  execute (fun _ => Ok df_dup) [] = CNone.
Proof.
  do 3 (split; [reflexivity|]). split; [now left|].
  apply (execute_duplicate_label _ [] df_dup <<"Castile">> <<"country_name">> [<<"country_name">>]);
    [reflexivity | reflexivity | reflexivity | now left].
Defined.

(** The same rows as [df_names], in another order. *)
Definition df_names_rev : frame :=
  {| columns := [<<"trading_node">>];
     rows := [[CStr <<"mike">>]; [CStr <<"zeta">>]; [CStr <<"alpha">>]] |}.

Lemma execute_row_order_witness :
  (fun _ : pystr => Ok df_names) <<"SELECT 1">> = Ok df_names /\
  (fun _ : pystr => Ok df_names_rev) <<"SELECT 1">> = Ok df_names_rev /\
  frame_perm df_names df_names_rev /\
  iloc00 df_names = Ok (CStr <<"alpha">>) /\ iloc00 df_names_rev = Ok (CStr <<"mike">>) /\
  execute (fun _ => Ok df_names) <<"SELECT 1">> = execute (fun _ => Ok df_names_rev) <<"SELECT 1">>.
Proof.
  assert (Hp : frame_perm df_names df_names_rev).
  { split; [reflexivity|]. cbn [rows df_names df_names_rev].
    exact (Permutation_rev [[CStr <<"alpha">>]; [CStr <<"zeta">>]; [CStr <<"mike">>]]). }
  do 5 (split; [first [exact Hp | reflexivity]|]).
  exact (execute_row_order (fun _ => Ok df_names) (fun _ => Ok df_names_rev) <<"SELECT 1">>
           df_names df_names_rev <<"alpha">> <<"mike">> eq_refl eq_refl Hp eq_refl eq_refl).
Defined.

Lemma execute_answer_type_witness :
  (fun _ : pystr => Ok df_names) <<"SELECT 1">> = Ok df_names /\ df_empty df_names = false /\
  answer_shape df_names (execute (fun _ => Ok df_names) <<"SELECT 1">>).
Proof.
  split; [reflexivity | split; [reflexivity|]].
  exact (execute_answer_type (fun _ => Ok df_names) <<"SELECT 1">> df_names eq_refl eq_refl).
Defined.

End Normalize.
