(* ===== verification/Prompt.v ===== *)
(** * Prompt: the schema text, the worked examples and the prompt (rag.py, lines 8-127)

    [schema] and [few_shot_example] are the two triple-quoted literals of
    [answer_gen], written one source line per list element so that each
    element can be compared with its line: the element of a line ending
    with the escape [\n\n] (lines 54, 64, 94 and 108) carries the two
    newlines it denotes ([nl2]), and the first and last elements are the
    text after the opening and before the closing quotes.  [build_prompt]
    is the f-string of lines 115-127, piece by piece. *)

From Stdlib Require Import Ascii String.
From Stdlib Require Import List Arith NArith Lia Bool.
From S2P Require Import Prelude PyStr Sre Extract.
Import ListNotations.
Open Scope py_scope.

Module Prompt.
Import Extract.

Definition nl2 : pystr := [LF; LF].

(** ** The literals *)

(** Lines 8-45. *)
Definition schema_lines : list pystr := [
    [];
    <<"    ">>;
    [];
    <<"1. country  ">>;
    <<"- Describes each country.  ">>;
    <<"- Columns:  ">>;
    <<"  - country_name (string): Name of the country  ">>;
    <<"  - trade_port (string): Name of the country's main trade port  ">>;
    <<"  - development (float): Development level of the country  ">>;
    [];
    <<"2. trading_node  ">>;
    <<"- Represents a trading node in the network.  ">>;
    <<"- Columns:  ">>;
    <<"  - trading_node (string): Node name  ">>;
    <<"  - local_value (float): Local economic value  ">>;
    <<"  - node_inland (boolean): Whether the node is inland  ">>;
    <<"  - total_power (float): Total trading power  ">>;
    <<"  - outgoing (float): Total flow going out  ">>;
    <<"  - ingoing (float): Total flow coming in  ">>;
    [];
    <<"3. flow  ">>;
    <<"- Represents a directed trade connection between two nodes.  ">>;
    <<"- Columns:  ">>;
    <<"  - upstream (string): Origin node of the flow  ">>;
    <<"  - downstream (string): Destination node of the flow  ">>;
    <<"  - flow (float): Amount of flow between the nodes  ">>;
    [];
    <<"4. node_country  ">>;
    <<"- Maps each trading node to a country and describes its role.  ">>;
    <<"- Columns:  ">>;
    <<"  - node_name (string): Name of the node  ">>;
    <<"  - country_name (string): The country this node belongs to  ">>;
    <<"  - is_home (boolean): Whether this is the country's home node  ">>;
    <<"  - merchant (boolean): Whether this node acts as a merchant  ">>;
    <<"  - base_trading_power (float): Original trading power  ">>;
    <<"  - calculated_trading_power (float): Final computed power">>;
    [];
    <<"    ">>
  ].

Definition schema : pystr := join [LF] schema_lines.

(** Lines 46-109. *)
Definition few_shot_lines : list pystr := [
    [];
    <<"Example 1:">>;
    <<"Question: How many nodes are inland?">>;
    <<"Reasoning:">>;
    <<"- Filter all records in the `trading_node` table where `node_inland = TRUE`.">>;
    <<"- Count the number of such nodes.">>;
    <<"SQL query:">>;
    <<"```sql">>;
    <<"SELECT COUNT(trading_node) FROM trading_node WHERE node_inland = TRUE;">> ++ nl2;
    [];
    <<"    ">>;
    <<"Example2:">>;
    <<"Question: Which node is connected as the upstream of the highest flow?">>;
    <<"Reasoning:">>;
    <<"- From the flow table, find the row with the highest flow value.">>;
    <<"- Return the upstream node of that row.">>;
    <<"SQL query:">>;
    <<"```sql">>;
    <<"SELECT upstream FROM flow ORDER BY flow DESC LIMIT 1;">> ++ nl2;
    [];
    <<"Example3:">>;
    <<"Question: For the country with the highest development, what are the upstream nodes of the home node?">>;
    <<"Reasoning: ">>;
    <<"- First, find the country with the highest development value in the country table.">>;
    <<"- Then, find the home node (is_home = TRUE) in the node_country table for that country.">>;
    <<"- Then, find all rows in the flow table where downstream matches the home node.">>;
    <<"- Finally, return the upstream nodes from those rows only if the upstream node also belongs to the same country.">>;
    <<"SQL query:">>;
    <<"```sql">>;
    <<"SELECT flow.upstream">>;
    <<"FROM flow">>;
    <<"JOIN node_country ON flow.upstream = node_country.node_name">>;
    <<"WHERE flow.downstream = (">>;
    <<"    SELECT node_name">>;
    <<"    FROM node_country">>;
    <<"    WHERE is_home = TRUE">>;
    <<"      AND country_name = (">>;
    <<"          SELECT country_name">>;
    <<"          FROM country">>;
    <<"          ORDER BY development DESC">>;
    <<"          LIMIT 1">>;
    <<"      )">>;
    <<")">>;
    <<"AND node_country.country_name = (">>;
    <<"    SELECT country_name">>;
    <<"    FROM country">>;
    <<"    ORDER BY development DESC">>;
    <<"    LIMIT 1">>;
    <<");">> ++ nl2;
    [];
    <<"Example 4:  ">>;
    <<"Question: List the top 3 inland trading nodes with the highest local value, sorted by their total outgoing flow in descending order.">>;
    <<"Reasoning:">>;
    <<"- Filter nodes where node_inland = TRUE in the trading_node table.">>;
    <<"- Among these, select nodes with the top 3 highest local_value.">>;
    <<"- Sort these top 3 nodes by their outgoing flow in descending order before returning.">>;
    <<"SQL query:">>;
    <<"```sql">>;
    <<"SELECT trading_node ">>;
    <<"FROM trading_node ">>;
    <<"WHERE node_inland = TRUE">>;
    <<"ORDER BY local_value DESC, outgoing DESC">>;
    <<"LIMIT 3;">> ++ nl2;
    []
  ].

Definition few_shot_example : pystr := join [LF] few_shot_lines.

(** ** The prompt: lines 115-127 *)

Definition build_prompt (textual_question : pystr) : pystr :=
  <<"You are an expert in relational databases and MYSQL.">> ++ nl2 ++
  <<"schema: ">> ++ schema ++ nl2 ++
  <<"Here are some examples :">> ++ few_shot_example ++ nl2 ++ <<" ">> ++
  <<"Please write a correct MySQL query to answer the question below.">> ++ nl2 ++
  <<"Consider the order of answers(e.g., in decreasing order, highest, most etc.)">> ++ nl2 ++
  <<"DO NOT use aliasing (e.g., T1, T2) unless absolutely necessary.">> ++ nl2 ++
  <<"Write clean and minimal SQL with correct column and table names.">> ++ nl2 ++
  <<"Before returning the SQL query, double-check that all column names used exist in the provided schema.">> ++
  <<"Only use the columns and tables provided in the schema. Do not invent new columns.">> ++
  <<"Question:">> ++ [LF] ++ textual_question ++ nl2 ++
  <<"SQL query:">>.

(** ** The prompt around the question *)

Definition prompt_head : pystr :=
  <<"You are an expert in relational databases and MYSQL.">> ++ nl2 ++
  <<"schema: ">> ++ schema ++ nl2 ++
  <<"Here are some examples :">> ++ few_shot_example ++ nl2 ++ <<" ">> ++
  <<"Please write a correct MySQL query to answer the question below.">> ++ nl2 ++
  <<"Consider the order of answers(e.g., in decreasing order, highest, most etc.)">> ++ nl2 ++
  <<"DO NOT use aliasing (e.g., T1, T2) unless absolutely necessary.">> ++ nl2 ++
  <<"Write clean and minimal SQL with correct column and table names.">> ++ nl2 ++
  <<"Before returning the SQL query, double-check that all column names used exist in the provided schema.">> ++
  <<"Only use the columns and tables provided in the schema. Do not invent new columns.">> ++
  <<"Question:">> ++ [LF].

Definition prompt_tail : pystr := nl2 ++ <<"SQL query:">>.

Lemma build_prompt_split q : build_prompt q = prompt_head ++ q ++ prompt_tail.
Proof. unfold build_prompt, prompt_head, prompt_tail. now rewrite <- !app_assoc. Qed.

(** Removing a known prefix, and a known suffix. *)
Fixpoint strip_prefix (p s : pystr) : option pystr :=
  match p, s with
  | [], _ => Some s
  | c :: p', d :: s' => if N.eqb c d then strip_prefix p' s' else None
  | _ :: _, [] => None
  end.

Definition strip_suffix (p s : pystr) : option pystr :=
  option_map (@rev pychar) (strip_prefix (rev p) (rev s)).

(** The question a prompt was built for. *)
Definition question_of_prompt (prompt : pystr) : option pystr :=
  match strip_prefix prompt_head prompt with
  | Some r => strip_suffix prompt_tail r
  | None => None
  end.

Lemma strip_prefix_app p s : strip_prefix p (p ++ s) = Some s.
Proof. induction p as [|c p IH]; simpl; [reflexivity|]. now rewrite N.eqb_refl. Qed.

Lemma strip_suffix_app p s : strip_suffix p (s ++ p) = Some s.
Proof.
  unfold strip_suffix. rewrite rev_app_distr, strip_prefix_app. simpl.
  now rewrite rev_involutive.
Qed.

(** [s] occurs in [t]. *)
Definition infix (s t : pystr) : Prop := exists a b, t = a ++ s ++ b.

(** The strings of [rs] occur in [s] one after the other, without
    overlapping. *)
Fixpoint in_order (rs : list pystr) (s : pystr) : Prop :=
  match rs with
  | [] => True
  | r :: rs' => exists a b, s = a ++ r ++ b /\ in_order rs' b
  end.

Fixpoint in_orderb (rs : list pystr) (s : pystr) : bool :=
  match rs with
  | [] => true
  | r :: rs' =>
      match find_sub r s with
      | Some i => in_orderb rs' (skipn (i + length r) s)
      | None => false
      end
  end.

(** The constraints of the specification (4.1 (d)) as the prompt words
    them, in the order it gives them, then the question header: respect
    the ordering language, avoid aliases, check the column names against
    the schema, use only the schema's tables and columns. *)
Definition prompt_rules : list pystr :=
  [<<"Consider the order of answers">>;
   <<"DO NOT use aliasing">>;
   <<"double-check that all column names used exist in the provided schema">>;
   <<"Only use the columns and tables provided in the schema">>;
   <<"Question:">>].

(** The offsets at which a fence starts. *)
Definition fence_positions (s : pystr) : list nat :=
  filter (fun k => prefixb fence (skipn k s)) (seq 0 (length s)).

(** A reply written in the format of the worked examples: lines of
    reasoning, an opening fence on a line of its own, the query lines, and
    no closing fence. *)
Definition exemplar_reply (ls1 ls2 : list pystr) : pystr := join [LF] (ls1 ++ fence_open :: ls2).

(** The lines before and after the fence line, with their separators. *)
Definition lines_before (ls : list pystr) : pystr :=
  match ls with [] => [] | _ => join [LF] ls ++ [LF] end.

Definition lines_after (ls : list pystr) : pystr :=
  match ls with [] => [] | _ => LF :: join [LF] ls end.

(** One such reply: the reasoning of the examples, then the query. *)
Definition ex_reasoning : list pystr :=
  [<<"Reasoning:">>;
   <<"- Filter all records in the `trading_node` table where `node_inland = TRUE`.">>;
   <<"- Count the number of such nodes.">>;
   <<"SQL query:">>].

Definition ex_query : list pystr :=
  [<<"SELECT COUNT(trading_node) FROM trading_node WHERE node_inland = TRUE;">>].

Definition exemplar_style_reply : pystr := exemplar_reply ex_reasoning ex_query.

(** The lines such a reply is made of, as a check. *)
Definition reply_line_ok (l : pystr) : bool :=
  match l with [] => false | _ => true end &&
  forallb (fun c => negb (is_linebreak c)) l &&
  match find_sub fence l with None => true | Some _ => false end.

Lemma infix_of_find p s : find_sub p s <> None -> infix p s.
Proof.
  destruct (find_sub p s) as [i|] eqn:Hf; [intros _|congruence].
  apply find_sub_least in Hf as [Hi _]. apply prefixb_spec in Hi as [r Hr].
  exists (firstn i s), r. rewrite <- Hr. symmetry. apply firstn_skipn.
Qed.

Lemma infix_app_r p s t : infix p s -> infix p (s ++ t).
Proof. intros (a & b & ->). exists a, (b ++ t). now rewrite <- !app_assoc. Qed.

Lemma join_around ls1 x ls2 :
  join [LF] (ls1 ++ x :: ls2) = lines_before ls1 ++ x ++ lines_after ls2.
Proof.
  induction ls1 as [|l ls1 IH].
  - destruct ls2; cbn [app join lines_before lines_after]; [now rewrite app_nil_r | reflexivity].
  - change ((l :: ls1) ++ x :: ls2) with (l :: (ls1 ++ x :: ls2)).
    destruct ls1 as [|m ls1]; cbn [app] in *.
    + change (join [LF] (l :: x :: ls2)) with (l ++ [LF] ++ join [LF] (x :: ls2)).
      rewrite IH. cbn [lines_before join]. now rewrite <- !app_assoc.
    + change (join [LF] (l :: m :: ls1 ++ x :: ls2)) with (l ++ [LF] ++ join [LF] (m :: ls1 ++ x :: ls2)).
      rewrite IH. cbn [lines_before]. change (join [LF] (l :: m :: ls1)) with (l ++ [LF] ++ join [LF] (m :: ls1)).
      now rewrite <- !app_assoc.
Qed.

Lemma LF_not_in_fence : ~ In LF fence.
Proof. cbn. intuition discriminate. Qed.

Lemma lines_no_fence ls :
  (forall l, In l ls -> find_sub fence l = None) ->
  find_sub fence (lines_before ls) = None /\ find_sub fence (lines_after ls) = None.
Proof.
  intros H. assert (Hj := find_sub_none_join fence ls ltac:(discriminate) LF_not_in_fence H).
  destruct ls as [|l ls]; [split; reflexivity|]. split.
  - apply find_sub_none_sep; [exact LF_not_in_fence | exact Hj | reflexivity].
  - apply (find_sub_none_sep _ []); [exact LF_not_in_fence | reflexivity | exact Hj].
Qed.

Lemma fence_open_none x : find_sub fence x = None -> find_sub fence_open x = None.
Proof.
  rewrite !find_sub_none. intros H k.
  destruct (prefixb fence_open (skipn k x)) eqn:E; [|reflexivity].
  apply fence_open_fence in E. now rewrite H in E.
Qed.

Lemma not_fence_line l : find_sub fence l = None -> is_fence_line l = false.
Proof.
  intros H. apply find_sub_none_strip in H. exact (proj1 (find_sub_none _ _) H 0).
Qed.

Lemma reply_lines_ok ls :
  forallb reply_line_ok ls = true ->
  forall l, In l ls -> l <> [] /\ single_line l /\ find_sub fence l = None.
Proof.
  rewrite forallb_forall. intros H l Hl. specialize (H l Hl). unfold reply_line_ok in H.
  apply andb_true_iff in H as [H Hf]. apply andb_true_iff in H as [Hn Hb].
  split; [destruct l; discriminate|]. split.
  - intros c Hc. rewrite forallb_forall in Hb. apply negb_true_iff, Hb, Hc.
  - now destruct (find_sub fence l).
Qed.

Lemma in_orderb_sound rs s : in_orderb rs s = true -> in_order rs s.
Proof.
  revert s; induction rs as [|r rs IH]; intros s H; cbn [in_orderb in_order] in *; [exact I|].
  destruct (find_sub r s) as [i|] eqn:Hf; [|discriminate].
  apply find_sub_least in Hf as [Hi _]. apply prefixb_spec in Hi as [b Hb].
  exists (firstn i s), b. split.
  - rewrite <- Hb. symmetry. apply firstn_skipn.
  - rewrite <- skipn_skipn', Hb, skipn_app, skipn_all, Nat.sub_diag, app_nil_l in H.
    exact (IH b H).
Qed.

(** Every fence of [s] opens a SQL block. *)
Lemma fences_open_all s :
  forallb (fun k => implb (prefixb fence (skipn k s)) (prefixb fence_open (skipn k s)))
          (seq 0 (length s)) = true ->
  forall k, prefixb fence (skipn k s) = true -> prefixb fence_open (skipn k s) = true.
Proof.
  intros Hall k Hk. destruct (Nat.lt_ge_cases k (length s)) as [Hlt|Hge].
  - rewrite forallb_forall in Hall. specialize (Hall k ltac:(apply in_seq; lia)).
    rewrite Hk in Hall. exact Hall.
  - rewrite skipn_all2 in Hk by exact Hge. discriminate.
Qed.

(** ** Properties *)

(** (C7) The prompt holds, in this order, the role line, the whole schema
    text, all the worked examples verbatim, the specification's
    constraints (ordering language, no aliases, the check of column names,
    only the schema's tables and columns) and the question header, the
    question verbatim and the final cue, the same text around every
    question (empty, or holding fences, included). *)
Theorem prompt_layout :
  exists a b c,
    (forall q, build_prompt q = a ++ schema ++ b ++ few_shot_example ++ c ++ q ++ nl2 ++ <<"SQL query:">>) /\
    infix <<"You are an expert in relational databases and MYSQL.">> a /\
    in_order prompt_rules c.
Proof.
  exists (<<"You are an expert in relational databases and MYSQL.">> ++ nl2 ++ <<"schema: ">>),
         (nl2 ++ <<"Here are some examples :">>),
         (nl2 ++ <<" ">> ++
          <<"Please write a correct MySQL query to answer the question below.">> ++ nl2 ++
          <<"Consider the order of answers(e.g., in decreasing order, highest, most etc.)">> ++ nl2 ++
          <<"DO NOT use aliasing (e.g., T1, T2) unless absolutely necessary.">> ++ nl2 ++
          <<"Write clean and minimal SQL with correct column and table names.">> ++ nl2 ++
          <<"Before returning the SQL query, double-check that all column names used exist in the provided schema.">> ++
          <<"Only use the columns and tables provided in the schema. Do not invent new columns.">> ++
          <<"Question:">> ++ [LF]).
  split; [|split].
  - intros q. rewrite build_prompt_split. unfold prompt_head, prompt_tail.
    rewrite <- !app_assoc. reflexivity.
  - exists [], (nl2 ++ <<"schema: ">>). reflexivity.
  - apply in_orderb_sound. vm_compute. reflexivity.
Qed.

(** (C14) The question is recovered from the prompt: building the prompt
    loses nothing of it and two questions give two prompts. *)
Theorem question_roundtrip q : question_of_prompt (build_prompt q) = Some q.
Proof.
  unfold question_of_prompt. rewrite build_prompt_split, strip_prefix_app.
  apply strip_suffix_app.
Qed.

(** (C29) The worked examples open four SQL fences and close none: every
    fence in them is an opening ["```sql"]. *)
Theorem few_shot_fences_unclosed :
  fence_positions few_shot_example = [182; 476; 1039; 1883] /\
  forall k, prefixb fence (skipn k few_shot_example) = true ->
            prefixb fence_open (skipn k few_shot_example) = true.
Proof.
  split; [vm_compute; reflexivity|].
  apply fences_open_all. vm_compute. reflexivity.
Qed.

(** (C30) A reply in the format of the worked examples has no closing
    fence: whatever its lines (non-empty, without line breaks or a fence),
    the regular expression does not match and the fallback returns the
    reasoning lines joined with the query lines, which is not SQL. *)
Theorem exemplar_style_reply_keeps_prose ls1 ls2 :
  (forall l, In l (ls1 ++ ls2) -> l <> [] /\ single_line l /\ find_sub fence l = None) ->
  strip (exemplar_reply ls1 ls2) = exemplar_reply ls1 ls2 ->
  extract_sql (exemplar_reply ls1 ls2) = Ok (strip (join [LF] (ls1 ++ ls2))).
Proof.
  intros H Hs. rewrite extract_sql_eq. unfold extract_spec.
  assert (Hf : forall ls, incl ls (ls1 ++ ls2) -> forall l, In l ls -> find_sub fence l = None)
    by (intros ls Hi l Hl; exact (proj2 (proj2 (H l (Hi l Hl))))).
  destruct (lines_no_fence ls1 (Hf ls1 (incl_appl _ (incl_refl _)))) as [Hb _].
  destruct (lines_no_fence ls2 (Hf ls2 (incl_appr _ (incl_refl _)))) as [_ Ha].
  replace (fenced_block (exemplar_reply ls1 ls2)) with (@None pystr).
  2:{ unfold fenced_block, exemplar_reply. rewrite join_around, fence_open_starts_text
        by exact (fence_open_none _ Hb).
      rewrite app_assoc, skipn_app, skipn_all2 by (rewrite length_app; lia).
      replace (length (lines_before ls1) + length fence_open - length (lines_before ls1 ++ fence_open))
        with 0 by (rewrite length_app; lia).
      cbn [skipn app]. now rewrite Ha. }
  unfold fallback. rewrite Hs. unfold exemplar_reply.
  rewrite splitlines_join.
  - rewrite !filter_app. cbn [filter]. change (is_fence_line fence_open) with true. cbn [negb].
    assert (Hn : forall ls, incl ls (ls1 ++ ls2) -> filter (fun l => negb (is_fence_line l)) ls = ls)
      by (intros ls Hi; apply filter_all; intros l Hl; now rewrite not_fence_line by exact (Hf ls Hi l Hl)).
    now rewrite (Hn ls1), (Hn ls2) by auto with datatypes.
  - intros l Hl. apply in_app_or in Hl as [Hl|[<-|Hl]].
    2:{ split; [discriminate|]. intros c Hc. cbn in Hc.
        repeat (destruct Hc as [<-|Hc]; [reflexivity|]). destruct Hc. }
    all: assert (Hin : In l (ls1 ++ ls2)) by (apply in_or_app; auto);
         destruct (H l Hin) as (? & ? & _); now split.
Qed.

Lemma exemplar_style_reply_keeps_prose_witness :
  extract_sql exemplar_style_reply = Ok (strip (join [LF] (ex_reasoning ++ ex_query))).
Proof.
  apply exemplar_style_reply_keeps_prose;
    [apply reply_lines_ok | unfold exemplar_style_reply]; vm_compute; reflexivity.
Defined.

(** (C31) Lines 123-125 lack the ["\n\n"] the other instructions end
    with: the last two rules and the question header run together. *)
Theorem prompt_rules_run_together q :
  infix <<"in the provided schema.Only use the columns">> (build_prompt q) /\
  infix <<"Do not invent new columns.Question:">> (build_prompt q).
Proof.
  rewrite build_prompt_split.
  split; apply infix_app_r, infix_of_find; vm_compute; intros H; discriminate H.
Qed.

End Prompt.
