(* ===== verification/Schema.v ===== *)
(** * Schema: the schema text as the specification's Schema Descriptor

    The code keeps the schema as text (rag.py, lines 8-45); the
    specification describes it as an ordered sequence of tables, each with
    a name, a description and an ordered sequence of columns with a name
    and a semantic type.  This file gives that structure, a parser
    [parse_schema] from the text's line format ([k. name], [- doc],
    [- Columns:], [- column (type): doc], blank lines ignored), and proves
    that the code's text parses into four tables whose names, and whose
    column names within each table, are unique.  It then checks the rule
    the prompt gives the model (use only listed tables and columns) on the
    worked examples themselves: every identifier of their queries is a
    table or a column of the schema. *)

From Stdlib Require Import Ascii String.
From Stdlib Require Import List Arith NArith Lia Bool.
From S2P Require Import Prelude PyStr Extract Prompt.
Import ListNotations.
Open Scope py_scope.

Module Schema.
Import Extract Prompt.

(** ** The Schema Descriptor *)

Inductive sem_type := TString | TFloat | TBoolean.

Record column_desc := mkcolumn { col_name : pystr; col_type : sem_type; col_doc : pystr }.

Record table_desc := mktable { tbl_name : pystr; tbl_doc : pystr; tbl_columns : list column_desc }.

(** Every table and column name. *)
Definition schema_names (ts : list table_desc) : list pystr :=
  map tbl_name ts ++ flat_map (fun t => map col_name (tbl_columns t)) ts.

(** ** Reading the text *)

Definition parse_type (s : pystr) : option sem_type :=
  if pystr_dec s <<"string">> then Some TString
  else if pystr_dec s <<"float">> then Some TFloat
  else if pystr_dec s <<"boolean">> then Some TBoolean
  else None.

(** [s.partition(sep)] when [sep] occurs in [s]. *)
Definition split_on (sep s : pystr) : option (pystr * pystr) :=
  match find_sub sep s with
  | Some i => Some (firstn i s, skipn (i + length sep) s)
  | None => None
  end.

(** A stripped column line: [- name (type): doc]. *)
Definition parse_column (line : pystr) : option column_desc :=
  match strip_prefix <<"- ">> line with
  | Some r =>
      match split_on <<" (">> r with
      | Some (name, r') =>
          match split_on <<"): ">> r' with
          | Some (ty, doc) => option_map (fun t => mkcolumn name t doc) (parse_type ty)
          | None => None
          end
      | None => None
      end
  | None => None
  end.

(** The column lines at the front of [ls], and the lines after them. *)
Fixpoint take_columns (ls : list pystr) : list column_desc * list pystr :=
  match ls with
  | l :: ls' =>
      match parse_column l with
      | Some c => let (cs, rest) := take_columns ls' in (c :: cs, rest)
      | None => ([], ls)
      end
  | [] => ([], [])
  end.

(** The header of table [n] (1 to 9): [n. name]. *)
Definition parse_header (n : nat) (line : pystr) : option pystr :=
  strip_prefix (N.of_nat (48 + n) :: <<". ">>) line.

(** The tables numbered from [n] in the stripped, non-blank lines [ls];
    each table takes at least three lines, so [length ls] steps suffice. *)
Fixpoint parse_tables (fuel n : nat) (ls : list pystr) : option (list table_desc) :=
  match ls, fuel with
  | [], _ => Some []
  | _, 0 => None
  | h :: d :: c :: ls', S fuel' =>
      match parse_header n h, strip_prefix <<"- ">> d with
      | Some name, Some doc =>
          if pystr_dec c <<"- Columns:">> then
            let (cols, rest) := take_columns ls' in
            option_map (cons (mktable name doc cols)) (parse_tables fuel' (S n) rest)
          else None
      | _, _ => None
      end
  | _, _ => None
  end.

Definition parse_schema (text : pystr) : option (list table_desc) :=
  let ls := filter (fun l => negb (match l with [] => true | _ => false end))
                   (map strip (splitlines text)) in
  parse_tables (length ls) 1 ls.

(** ** The worked examples' queries *)

(** [s[:s.find(p)]], or [s] when [p] does not occur. *)
Definition take_until (p s : pystr) : pystr :=
  match find_sub p s with Some i => firstn i s | None => s end.

(** The query after each opening fence, up to the first blank line. *)
Definition exemplar_queries (s : pystr) : list pystr :=
  map (fun k => take_until nl2 (skipn (k + length fence_open) s)) (fence_positions s).

(** Characters of a lower-case SQL identifier. *)
Definition is_ident_char (c : pychar) : bool := (((97 <=? c) && (c <=? 122)) || (c =? 95))%N.

(** The maximal runs of identifier characters. *)
Fixpoint split_words (s : pystr) : list pystr :=
  match s with
  | [] => [[]]
  | c :: s' =>
      let ws := split_words s' in
      if is_ident_char c then
        match ws with w :: ws' => (c :: w) :: ws' | [] => [[c]] end
      else [] :: ws
  end.

Definition identifiers (s : pystr) : list pystr :=
  filter (fun w => match w with [] => false | _ => true end) (split_words s).

(** ** The four tables of the text *)

Definition col (name : string) (t : sem_type) (doc : string) : column_desc :=
  mkcolumn (lit name) t (lit doc).

Definition schema_tables : list table_desc := [
  mktable <<"country">> <<"Describes each country.">>
    [col "country_name" TString "Name of the country";
     col "trade_port" TString "Name of the country's main trade port";
     col "development" TFloat "Development level of the country"];
  mktable <<"trading_node">> <<"Represents a trading node in the network.">>
    [col "trading_node" TString "Node name";
     col "local_value" TFloat "Local economic value";
     col "node_inland" TBoolean "Whether the node is inland";
     col "total_power" TFloat "Total trading power";
     col "outgoing" TFloat "Total flow going out";
     col "ingoing" TFloat "Total flow coming in"];
  mktable <<"flow">> <<"Represents a directed trade connection between two nodes.">>
    [col "upstream" TString "Origin node of the flow";
     col "downstream" TString "Destination node of the flow";
     col "flow" TFloat "Amount of flow between the nodes"];
  mktable <<"node_country">> <<"Maps each trading node to a country and describes its role.">>
    [col "node_name" TString "Name of the node";
     col "country_name" TString "The country this node belongs to";
     col "is_home" TBoolean "Whether this is the country's home node";
     col "merchant" TBoolean "Whether this node acts as a merchant";
     col "base_trading_power" TFloat "Original trading power";
     col "calculated_trading_power" TFloat "Final computed power"]].

(** ** Lemmas *)

(** [x in l] on strings. *)
Definition memb (x : pystr) (l : list pystr) : bool :=
  existsb (fun y => if pystr_dec x y then true else false) l.

Lemma memb_In x l : memb x l = true <-> In x l.
Proof.
  unfold memb. rewrite existsb_exists. split.
  - intros (y & Hy & Hxy). destruct (pystr_dec x y) as [->|]; [exact Hy | discriminate].
  - intros Hx. exists x. split; [exact Hx|]. now destruct (pystr_dec x x).
Qed.

Fixpoint nodupb (l : list pystr) : bool :=
  match l with
  | [] => true
  | x :: l' => negb (memb x l') && nodupb l'
  end.

Lemma nodupb_NoDup l : nodupb l = true -> NoDup l.
Proof.
  induction l as [|x l IH]; cbn [nodupb]; intros H; [constructor|].
  apply andb_true_iff in H as [Hx Hl]. constructor; [|exact (IH Hl)].
  intros Hin. apply memb_In in Hin. now rewrite Hin in Hx.
Qed.

(** ** Properties *)

(** (C25) The code's schema text is a well-formed Schema Descriptor: it
    parses into the four tables [country], [trading_node], [flow] and
    [node_country] with their typed columns, the table names are unique
    and so are the column names of each table. *)
Theorem schema_descriptor :
  parse_schema schema = Some schema_tables /\
  NoDup (map tbl_name schema_tables) /\
  Forall (fun t => NoDup (map col_name (tbl_columns t))) schema_tables.
Proof.
  split; [vm_compute; reflexivity|]. split.
  - apply nodupb_NoDup. vm_compute. reflexivity.
  - assert (Hall : forallb (fun t => nodupb (map col_name (tbl_columns t))) schema_tables = true)
      by (vm_compute; reflexivity).
    apply Forall_forall. intros t Ht. rewrite forallb_forall in Hall.
    exact (nodupb_NoDup _ (Hall t Ht)).
Qed.

(** (C26) The worked examples follow the rule the prompt gives: every
    lower-case identifier of their four queries is a table or a column of
    the schema. *)
Theorem exemplar_identifiers_in_schema :
  length (exemplar_queries few_shot_example) = 4 /\
  forall q x, In q (exemplar_queries few_shot_example) -> In x (identifiers q) ->
              In x (schema_names schema_tables).
Proof.
  split; [vm_compute; reflexivity|]. intros q x Hq Hx.
  assert (Hall : forallb (fun q => forallb (fun x => memb x (schema_names schema_tables)) (identifiers q))
                         (exemplar_queries few_shot_example) = true) by (vm_compute; reflexivity).
  rewrite forallb_forall in Hall. specialize (Hall q Hq). rewrite forallb_forall in Hall.
  apply memb_In, Hall, Hx.
Qed.

End Schema.
