(* ===== verification/Pipeline.v ===== *)
(** * Pipeline: [answer_gen] (rag.py, lines 7-169)

    The function itself, against interfaces of the two services it calls:
    [ChatService] for ollama's [chat] (lines 129-134), which returns a
    [ChatResponse] whose [message.content] is a [str] or [None] (line
    137 passes it to [re.search]), and [DbEngine] for [db_engine.query]
    (line 153).  Its effects are the requests it issues and the lines it
    prints; they are recorded, in order, in a trace threaded by a small
    state-and-exception monad [M].  The file also states the pipeline as
    the step relation of the spec's state machine (START, PromptBuilt,
    Generated, Extracted, Executed, END) and proves that [answer_gen]
    refines it. *)

From Stdlib Require Import Ascii String.
From Stdlib Require Import List Arith Lia Bool Relations ZArith.
From S2P Require Import Prelude PyStr Sre Extract PyFloat Frame Normalize Prompt.
Import ListNotations.
Open Scope py_scope.

Module Pipeline.
Import Extract Frame Normalize Prompt.

(** ** The interfaces of the external services *)

(** ollama's [Message]: a role and an optional text ([content:
    Optional[str]]); the request's entries [{'role': ..., 'content': ...}]
    and the reply's [response.message] are both messages. *)
Record Message := mkmessage { role : pystr; content : option pystr }.

(** The arguments of [chat(model=..., options={"temperature": 0},
    messages=[...])]. *)
Record chat_request := mkrequest {
  model : pystr;
  temperature : nat;
  messages : list Message }.

(** ollama's [ChatResponse], for the field the code reads. *)
Record ChatResponse := mkresponse { message : Message }.

(** [chat] returns a [ChatResponse], or raises. *)
Class ChatService := { chat : chat_request -> pyresult ChatResponse }.

(** [db_engine.query] returns a [DataFrame], or raises. *)
Class DbEngine := { query : pystr -> pyresult frame }.

(** ** Effects: requests and printed lines, in order *)

Inductive event :=
| EChat (req : chat_request)   (** the request sent to the chat model *)
| EPrint (out : pystr)          (** text written to stdout *)
| EQuery (sql : pystr).         (** the query sent to the database *)

(** A computation that appends events to the trace and returns a value or
    raises.  Events emitted before an exception stay in the trace. *)
Definition M (A : Type) : Type := list event -> pyresult A * list event.

Definition ret {A} (a : A) : M A := fun t => (Ok a, t).

Definition bind {A B} (m : M A) (k : A -> M B) : M B :=
  fun t => match m t with
           | (Ok a, t') => k a t'
           | (Raise e, t') => (Raise e, t')
           end.

Definition lift {A} (r : pyresult A) : M A := fun t => (r, t).

Definition emit (e : event) : M unit := fun t => (Ok tt, t ++ [e]).

(** [try: m except Exception: return h] *)
Definition catch {A} (m : M A) (h : A) : M A :=
  fun t => match m t with
           | (Ok a, t') => (Ok a, t')
           | (Raise _, t') => (Ok h, t')
           end.

Declare Scope pipe_scope.
Delimit Scope pipe_scope with pipe.
Notation "'let!' x ':=' m 'in' k" := (bind m (fun x => k))
  (at level 10, x name, m at level 100, k at level 200) : pipe_scope.
Open Scope pipe_scope.

(** [response.message.content] passed to [re.search] (line 137): a [str],
    or [None], on which [re.search] raises [TypeError]. *)
Definition reply_text (response : ChatResponse) : pyresult pystr :=
  match content (message response) with
  | Some s => Ok s
  | None => Raise TypeError
  end.

(** [print(a, b)]: the two arguments separated by a space, then a
    newline. *)
Definition print2 (a b : pystr) : M unit := emit (EPrint (a ++ <<" ">> ++ b ++ [LF])).

Section AnswerGen.
Context `{ChatService} `{DbEngine}.

(** The request of lines 129-134. *)
Definition chat_request_of (model_name prompt : pystr) : chat_request :=
  {| model := model_name; temperature := 0;
     messages := [{| role := <<"user">>; content := Some prompt |}] |}.

Definition call_chat (req : chat_request) : M ChatResponse :=
  fun t => (chat req, t ++ [EChat req]).

Definition call_query (sql : pystr) : M frame :=
  fun t => (query sql, t ++ [EQuery sql]).

(** Lines 152-169: the query and the post-processing under [try]. *)
Definition run_query (sql_query : pystr) : M cell :=
  catch (let! result_df := call_query sql_query in lift (postprocess result_df)) CNone.

(** [answer_gen(textual_question, db_engine, model_name)]. *)
Definition answer_gen (textual_question model_name : pystr) : M cell :=
  let prompt := build_prompt textual_question in
  let! response := call_chat (chat_request_of model_name prompt) in
  let! reply := lift (reply_text response) in
  let! sql_query := lift (extract_sql reply) in
  let! _ := print2 <<"PROMPT:
">> prompt in
  let! _ := print2 <<"RAW RESPONSE:
">> reply in
  let! _ := print2 <<"PARSED SQL QUERY:
">> sql_query in
  run_query sql_query.

(** The text the chat call produces, or the exception it raises
    (raised by [chat], or [TypeError] for a [None] content). *)
Definition generate (req : chat_request) : pyresult pystr :=
  response <- chat req ;; reply_text response.

(** The events of a run whose chat call returned [reply]. *)
Definition run_trace (textual_question model_name reply : pystr) : list event :=
  let prompt := build_prompt textual_question in
  [EChat (chat_request_of model_name prompt);
   EPrint (<<"PROMPT:
">> ++ <<" ">> ++ prompt ++ [LF]);
   EPrint (<<"RAW RESPONSE:
">> ++ <<" ">> ++ reply ++ [LF]);
   EPrint (<<"PARSED SQL QUERY:
">> ++ <<" ">> ++ extract_spec reply ++ [LF]);
   EQuery (extract_spec reply)].

(** ** Lemmas *)

Lemma run_query_eq sql t :
  run_query sql t = (Ok (execute query sql), t ++ [EQuery sql]).
Proof.
  unfold run_query, catch, bind, call_query, lift, execute, try_except.
  destruct (query sql) as [df|e]; [|reflexivity].
  destruct (postprocess df); reflexivity.
Qed.

Lemma answer_gen_ok_eq q m reply t :
  generate (chat_request_of m (build_prompt q)) = Ok reply ->
  answer_gen q m t = (Ok (execute query (extract_spec reply)), t ++ run_trace q m reply).
Proof.
  unfold generate. intros Hc. unfold answer_gen, bind at 1, call_chat.
  destruct (chat _) as [response|e]; [|discriminate Hc].
  unfold bind at 1, lift. rewrite Hc. unfold bind at 1. rewrite extract_sql_eq.
  cbn [bind print2 emit]. rewrite run_query_eq, <- !app_assoc. reflexivity.
Qed.

Lemma answer_gen_raise_eq q m e t :
  generate (chat_request_of m (build_prompt q)) = Raise e ->
  answer_gen q m t = (Raise e, t ++ [EChat (chat_request_of m (build_prompt q))]).
Proof.
  unfold generate. intros Hc. unfold answer_gen, bind at 1, call_chat.
  destruct (chat _) as [response|e']; [|inv Hc; reflexivity].
  unfold bind at 1, lift. now rewrite Hc.
Qed.

End AnswerGen.

(** ** The spec's state machine *)

(** The states of one run (spec, section 4: START, PromptBuilt, Generated,
    Extracted, Executed, END), with the exception that ends a failed run. *)
Inductive pstate :=
| Start (question : pystr)
| PromptBuilt (prompt : pystr)
| Generated (reply : pystr)
| Extracted (sql : pystr)
| Executed (result : pyresult frame)
| Done (answer : cell)
| Failed (e : pyexn).

Definition final (s : pstate) : Prop :=
  match s with Done _ | Failed _ => True | _ => False end.

(** The state a run ends in, from the result of [answer_gen]. *)
Definition outcome (r : pyresult cell) : pstate :=
  match r with Ok a => Done a | Raise e => Failed e end.

Section StateMachine.
Context `{ChatService} `{DbEngine}.
Variable model_name : pystr.

Inductive step : pstate -> pstate -> Prop :=
| step_prompt q :
    step (Start q) (PromptBuilt (build_prompt q))
| step_generate p reply :
    generate (chat_request_of model_name p) = Ok reply ->
    step (PromptBuilt p) (Generated reply)
| step_generate_fail p e :
    generate (chat_request_of model_name p) = Raise e ->
    step (PromptBuilt p) (Failed e)
| step_extract reply sql :
    extract_sql reply = Ok sql ->
    step (Generated reply) (Extracted sql)
| step_extract_fail reply e :
    extract_sql reply = Raise e ->
    step (Generated reply) (Failed e)
| step_execute sql :
    step (Extracted sql) (Executed (query sql))
| step_execute_fail e :
    step (Executed (Raise e)) (Done CNone)
| step_normalize df :
    step (Executed (Ok df)) (Done (try_except (postprocess df) CNone)).

Definition reaches : pstate -> pstate -> Prop := clos_refl_trans_1n pstate step.

Lemma step_det s s1 s2 : step s s1 -> step s s2 -> s1 = s2.
Proof. intros H1 H2; inv H1; inv H2; congruence. Qed.


Lemma final_no_step f s : final f -> ~ step f s.
Proof. intros Hf Hs; inv Hs; exact Hf. Qed.


Lemma reaches_final_unique s f1 f2 :
  reaches s f1 -> reaches s f2 -> final f1 -> final f2 -> f1 = f2.
Proof.
  intros R1; revert f2; induction R1 as [x|x y z Hxy Ryz IH]; intros f2 R2 F1 F2.
  - destruct R2 as [|y' z' Hs ?]; [reflexivity|].
    exfalso; exact (final_no_step _ _ F1 Hs).
  - destruct R2 as [|y' z' Hs R2]; [exfalso; exact (final_no_step _ _ F2 Hxy)|].
    rewrite (step_det _ _ _ Hxy Hs) in IH.
    apply IH; assumption.
Qed.



Lemma answer_gen_reaches q t :
  reaches (Start q) (outcome (fst (answer_gen q model_name t))).
Proof.
  eapply Relation_Operators.rt1n_trans; [apply step_prompt|].
  destruct (generate (chat_request_of model_name (build_prompt q))) as [reply|e] eqn:Hc.
  - rewrite (answer_gen_ok_eq q model_name reply t Hc). cbn [fst outcome].
    eapply Relation_Operators.rt1n_trans; [apply step_generate; exact Hc|].
    eapply Relation_Operators.rt1n_trans; [apply step_extract, extract_sql_eq|].
    eapply Relation_Operators.rt1n_trans; [apply step_execute|].
    unfold execute. destruct (query (extract_spec reply)) as [df|e].
    + eapply Relation_Operators.rt1n_trans; [apply step_normalize | apply rt1n_refl].
    + eapply Relation_Operators.rt1n_trans; [apply step_execute_fail | apply rt1n_refl].
  - rewrite (answer_gen_raise_eq q model_name e t Hc). cbn [fst outcome].
    eapply Relation_Operators.rt1n_trans; [apply step_generate_fail; exact Hc | apply rt1n_refl].
Qed.
End StateMachine.

Definition is_chat (e : event) : bool := match e with EChat _ => true | _ => false end.
Definition is_query (e : event) : bool := match e with EQuery _ => true | _ => false end.

(** ** Properties *)

Section Properties.
Context `{ChatService} `{DbEngine}.

(** The outcome of the chat call, from the response and its content. *)
Lemma generate_ok req response reply :
  chat req = Ok response -> content (message response) = Some reply -> generate req = Ok reply.
Proof. intros Hc Hm. unfold generate, reply_text. now rewrite Hc, Hm. Qed.

Lemma generate_raise_cases req e :
  generate req = Raise e ->
  chat req = Raise e \/
  (exists response, chat req = Ok response /\ content (message response) = None /\ e = TypeError).
Proof.
  unfold generate, reply_text. destruct (chat req) as [response|e']; [|intros Hr; inv Hr; now left].
  destruct (content (message response)) eqn:Hm; intros Hr; inv Hr. right. eauto.
Qed.

(** (C1) End to end: when the chat model replies with a text, [answer_gen]
    returns the normalised result of running the extracted query (never an
    exception), after one chat request with temperature 0 and the prompt
    as the single user message, the three diagnostic prints in order, and
    one query. *)
Theorem answer_gen_generation_ok q m response reply t :
  chat (chat_request_of m (build_prompt q)) = Ok response ->
  content (message response) = Some reply ->
  answer_gen q m t = (Ok (execute query (extract_spec reply)), t ++ run_trace q m reply).
Proof. intros Hc Hm. apply answer_gen_ok_eq, (generate_ok _ _ _ Hc Hm). Qed.

(** (C10) A failure of the chat service propagates out of [answer_gen]
    unchanged, and nothing is printed or queried after the request. *)
Theorem answer_gen_generation_fails q m e t :
  chat (chat_request_of m (build_prompt q)) = Raise e ->
  answer_gen q m t = (Raise e, t ++ [EChat (chat_request_of m (build_prompt q))]).
Proof. intros Hc. apply answer_gen_raise_eq. unfold generate. now rewrite Hc. Qed.

(** (C18) A response whose [message.content] is [None] makes
    [re.search] raise [TypeError] on line 137, outside the [try]: the
    exception escapes [answer_gen], and nothing is printed or queried. *)
Theorem answer_gen_content_none q m response t :
  chat (chat_request_of m (build_prompt q)) = Ok response ->
  content (message response) = None ->
  answer_gen q m t = (Raise TypeError, t ++ [EChat (chat_request_of m (build_prompt q))]).
Proof.
  intros Hc Hm. apply answer_gen_raise_eq. unfold generate, reply_text. now rewrite Hc, Hm.
Qed.

(** (C9) The only exceptions that escape [answer_gen] come from the chat
    call: the service's own, or [TypeError] for a response without text;
    extraction and execution problems never raise. *)
Theorem answer_gen_raises_only_from_chat q m t e :
  fst (answer_gen q m t) = Raise e ->
  chat (chat_request_of m (build_prompt q)) = Raise e \/
  (exists response, chat (chat_request_of m (build_prompt q)) = Ok response /\
                    content (message response) = None /\ e = TypeError).
Proof.
  intros Hr. apply generate_raise_cases.
  destruct (generate (chat_request_of m (build_prompt q))) as [reply|e'] eqn:Hc.
  - rewrite (answer_gen_ok_eq q m reply t Hc) in Hr. discriminate.
  - rewrite (answer_gen_raise_eq q m e' t Hc) in Hr. cbn in Hr. congruence.
Qed.

(** (C15) Every run appends to the trace exactly one chat request, the
    one built from the question's prompt, and at most one query. *)
Theorem answer_gen_trace q m t :
  exists tr, snd (answer_gen q m t) = t ++ tr /\
             filter is_chat tr = [EChat (chat_request_of m (build_prompt q))] /\
             length (filter is_query tr) <= 1.
Proof.
  destruct (generate (chat_request_of m (build_prompt q))) as [reply|e] eqn:Hc.
  - exists (run_trace q m reply). rewrite (answer_gen_ok_eq q m reply t Hc).
    split; [reflexivity | split; [reflexivity | cbn; lia]].
  - exists [EChat (chat_request_of m (build_prompt q))].
    rewrite (answer_gen_raise_eq q m e t Hc).
    split; [reflexivity | split; [reflexivity | cbn; lia]].
Qed.

(** (C5) [answer_gen] implements the state machine: a run from
    [Start q] ends in a final state [s] exactly when [s] is the outcome
    [answer_gen] returns. *)
Theorem answer_gen_refines q m t s :
  final s -> (reaches m (Start q) s <-> s = outcome (fst (answer_gen q m t))).
Proof.
  intros Hf. pose proof (answer_gen_reaches m q t) as R. split.
  - intros Rs. apply (reaches_final_unique m (Start q)); try assumption.
    destruct (fst (answer_gen q m t)); exact I.
  - intros ->. exact R.
Qed.

End Properties.

(** ** Services for the witnesses *)

Definition question_inland : pystr := <<"How many nodes are inland?">>.
Definition model_llama : pystr := <<"llama3">>.

Definition reply_fenced : pystr :=
  <<"Reasoning: count the inland nodes.">> ++ [LF] ++ fence_open ++ [LF] ++
  <<"SELECT COUNT(trading_node) FROM trading_node WHERE node_inland = TRUE;">> ++ [LF] ++ fence.

(** A response carrying [text]. *)
Definition response_of (text : option pystr) : ChatResponse :=
  {| message := {| role := <<"assistant">>; content := text |} |}.

#[local] Instance chat_stub : ChatService := {| chat := fun _ => Ok (response_of (Some reply_fenced)) |}.
#[local] Instance db_stub : DbEngine := {| query := fun _ => Ok df_count |}.

Definition chat_down : ChatService := {| chat := fun _ => Raise (ServiceError "connection refused") |}.
Definition chat_empty : ChatService := {| chat := fun _ => Ok (response_of None) |}.

Lemma answer_gen_generation_ok_witness :
  chat (chat_request_of model_llama (build_prompt question_inland)) = Ok (response_of (Some reply_fenced)) /\
  content (message (response_of (Some reply_fenced))) = Some reply_fenced /\
  answer_gen question_inland model_llama [] =
    (Ok (execute query (extract_spec reply_fenced)), run_trace question_inland model_llama reply_fenced).
Proof.
  split; [reflexivity | split; [reflexivity|]].
  apply (answer_gen_generation_ok question_inland model_llama (response_of (Some reply_fenced))
           reply_fenced []); reflexivity.
Defined.

Lemma answer_gen_generation_fails_witness :
  @chat chat_down (chat_request_of model_llama (build_prompt question_inland)) =
    Raise (ServiceError "connection refused") /\
  @answer_gen chat_down db_stub question_inland model_llama [] =
    (Raise (ServiceError "connection refused"),
     [EChat (chat_request_of model_llama (build_prompt question_inland))]).
Proof.
  split; [reflexivity|].
  apply (@answer_gen_generation_fails chat_down db_stub question_inland model_llama _ []).
  reflexivity.
Defined.

Lemma answer_gen_content_none_witness :
  @chat chat_empty (chat_request_of model_llama (build_prompt question_inland)) = Ok (response_of None) /\
  content (message (response_of None)) = None /\
  @answer_gen chat_empty db_stub question_inland model_llama [] =
    (Raise TypeError, [EChat (chat_request_of model_llama (build_prompt question_inland))]).
Proof.
  split; [reflexivity | split; [reflexivity|]].
  apply (@answer_gen_content_none chat_empty db_stub question_inland model_llama (response_of None) []);
    reflexivity.
Defined.

Lemma answer_gen_raises_only_from_chat_witness :
  fst (@answer_gen chat_empty db_stub question_inland model_llama []) = Raise TypeError /\
  (@chat chat_empty (chat_request_of model_llama (build_prompt question_inland)) = Raise TypeError \/
   (exists response, @chat chat_empty (chat_request_of model_llama (build_prompt question_inland)) = Ok response /\
                     content (message response) = None /\ TypeError = TypeError)).
Proof.
  split; [reflexivity|].
  apply (@answer_gen_raises_only_from_chat chat_empty db_stub question_inland model_llama []).
  reflexivity.
Defined.

Lemma answer_gen_refines_witness :
  final (Done (CInt 7%Z)) /\
  (reaches model_llama (Start question_inland) (Done (CInt 7%Z)) <->
   Done (CInt 7%Z) = outcome (fst (answer_gen question_inland model_llama []))).
Proof.
  split; [exact I|].
  apply (answer_gen_refines question_inland model_llama [] (Done (CInt 7%Z))). exact I.
Defined.


End Pipeline.
